(** * Video ingestion pipeline: reference codec, orientation classifier,
      upload handlers

    A shallow embedding of the Go sources
      - [handler_upload_video.go]     (generatePresignedURL, dbVideoToSignedVideo,
                                       handlerUploadVideo)
      - [get_video_aspect_ratio.go]   (almostEqual, getVideoAspectRatio)
      - [preprocess_video.go]         (processVideoForFastStart)
      - [handler_upload_thumbnail.go] (contentTypeToExt, handlerUploadThumbnail)
    together with the properties the specification states about them.

    Go strings are immutable byte sequences and are modelled by [string]
    (a list of 8-bit [ascii] bytes).  Go's [int] is a 64-bit integer carried
    as [Z]; [float64] is IEEE-754 binary64, modelled by the primitive
    [float] type, which has exactly that arithmetic. *)

From Stdlib Require Import ZArith List String Ascii Bool Lia Floats Uint63.
From Stdlib Require QArith Qabs.
From stdpp Require Import base option list gmap strings.

Local Open Scope string_scope.
Local Open Scope Z_scope.
Set Warnings "-inexact-float,-clear-no-such-hyp".

(** ** The Go [strings] package, as far as the sources use it *)

(** [strings.HasPrefix(s, prefix)] *)
Definition HasPrefix (s pre : string) : bool := String.prefix pre s.

(** [strings.Contains(s, substr)]: some suffix of [s] starts with [substr]. *)
Fixpoint Contains (s substr : string) : bool :=
  HasPrefix s substr ||
  match s with
  | EmptyString => false
  | String _ s' => Contains s' substr
  end.

(** [strings.Index(s, substr)]: byte offset of the first occurrence;
    Go's [-1] is [None]. *)
Fixpoint Index (s substr : string) : option nat :=
  if HasPrefix s substr then Some 0%nat
  else match s with
       | EmptyString => None
       | String _ s' => option_map S (Index s' substr)
       end.

(** The slice expressions [s[:m]] and [s[m:]]. *)
Definition slice_to (s : string) (m : nat) : string := String.substring 0 m s.
Definition slice_from (s : string) (m : nat) : string :=
  String.substring m (String.length s - m) s.

(** [strings.SplitN(s, sep, n)] for a non-empty separator, after the
    library's [genSplit]: at most [n] pieces, the last one the unsplit
    remainder.  [n = 0] gives no piece at all; for [n < 0] the library splits
    everywhere, and [length s + 1] pieces are then always enough. *)
Fixpoint genSplit (s sep : string) (n : nat) : list string :=
  match n with
  | O => []
  | S O => [s]
  | S n' =>
      match Index s sep with
      | None => [s]
      | Some m => slice_to s m :: genSplit (slice_from s (m + String.length sep)) sep n'
      end
  end.

Definition SplitN (s sep : string) (n : Z) : list string :=
  if n <? 0 then genSplit s sep (S (String.length s)) else genSplit s sep (Z.to_nat n).

(** White space "as defined by Unicode" ([unicode.IsSpace]): the code points
    U+0009..U+000D, U+0020, U+0085, U+00A0, U+1680, U+2000..U+200A, U+2028,
    U+2029, U+202F, U+205F and U+3000.  [strings.TrimSpace] decodes UTF-8 and
    strips the runes for which [IsSpace] holds; a rune decoded at a position
    is one of these exactly when the bytes there are its (shortest-form)
    UTF-8 encoding, and an ill-formed byte decodes to U+FFFD, which is no
    space.  The table lists those encodings, bytes in decimal. *)
Definition spaceRunes : list (list ascii) :=
  [ ["009"]; ["010"]; ["011"]; ["012"]; ["013"]; ["032"];
    ["194"; "133"]; ["194"; "160"];
    ["225"; "154"; "128"];
    ["226"; "128"; "128"]; ["226"; "128"; "129"]; ["226"; "128"; "130"];
    ["226"; "128"; "131"]; ["226"; "128"; "132"]; ["226"; "128"; "133"];
    ["226"; "128"; "134"]; ["226"; "128"; "135"]; ["226"; "128"; "136"];
    ["226"; "128"; "137"]; ["226"; "128"; "138"];
    ["226"; "128"; "168"]; ["226"; "128"; "169"]; ["226"; "128"; "175"];
    ["226"; "129"; "159"];
    ["227"; "128"; "128"] ]%char.

(** The entry of [table] that [l] starts with, if any. *)
Definition leadingRune (table : list (list ascii)) (l : list ascii) : option (list ascii) :=
  List.find (fun e => bool_decide (e `prefix_of` l)) table.

(** Strip leading runes of [table]; each round removes at least one byte, so
    [length l] rounds always suffice. *)
Fixpoint trimLeftFuel (table : list (list ascii)) (fuel : nat) (l : list ascii) : list ascii :=
  match fuel with
  | O => l
  | S fuel' =>
      match leadingRune table l with
      | Some e => trimLeftFuel table fuel' (drop (length e) l)
      | None => l
      end
  end.

Definition trimLeft (table : list (list ascii)) (l : list ascii) : list ascii :=
  trimLeftFuel table (length l) l.

(** Trailing runes are stripped the same way on the reversed bytes. *)
Definition trimRight (table : list (list ascii)) (l : list ascii) : list ascii :=
  reverse (trimLeft (map reverse table) (reverse l)).

(** [strings.TrimSpace(s)]: leading white space removed, then trailing. *)
Definition TrimSpace (s : string) : string :=
  string_of_list_ascii
    (trimRight spaceRunes (trimLeft spaceRunes (list_ascii_of_string s))).

(** ** Errors and results

    A Go [error] is an opaque value with a message.  The constructors keep the
    format strings of the [fmt.Errorf] calls in the sources; [External] is an
    error handed back by a library or an external tool. *)
Inductive error : Type :=
  | Errorf (msg : string)                    (* fmt.Errorf(msg) *)
  | ErrorfQ (msg : string) (arg : string)    (* fmt.Errorf(msg ++ "%q", arg) *)
  | ErrorfW (msg : string) (cause : error)   (* fmt.Errorf(msg ++ "%w", cause) *)
  | External (msg : string).

(** What a call into a library, a tool or a remote service hands back. *)
Inductive outcome (A : Type) : Type :=
  | Done (a : A)
  | Failed (msg : string).
Arguments Done {A} a.
Arguments Failed {A} msg.

(** The two errors [dbVideoToSignedVideo] raises for a reference it cannot
    decode (the specification's [MalformedReference]). *)
Definition errMalformed (raw : string) : error :=
  ErrorfQ "malformed video_url (want 'bucket,key'): " raw.
Definition errEmptyPart (raw : string) : error :=
  ErrorfQ "empty bucket or key in video_url: " raw.

Definition MalformedReference (e : error) : Prop :=
  exists raw, e = errMalformed raw \/ e = errEmptyPart raw.

(** [time.Duration] counts nanoseconds in an [int64]. *)
Definition Duration : Type := Z.
Definition Nanosecond : Duration := 1.
Definition Microsecond : Duration := 1000 * Nanosecond.
Definition Millisecond : Duration := 1000 * Microsecond.
Definition Second : Duration := 1000 * Millisecond.
Definition Minute : Duration := 60 * Second.

(** ** Data model *)

(** [uuid.UUID]: 128 opaque bits. *)
Abbreviation UUID := N (only parsing).

(** Modelled from the spec: the record type [database.Video] is declared in
    [internal/database], which is not among the files embedded here.
    Section 3 gives its fields: an identifier, the owner's identifier, a nullable location
    reference, a nullable thumbnail reference, and descriptive fields the
    core never touches (kept together in [Descriptive]).  The handlers read
    [ID] and [UserID] and assign [VideoURL] and [ThumbnailURL]; a Go [*string]
    is an [option string]. *)
Record Video : Type := mkVideo {
  ID : UUID;
  UserID : UUID;
  VideoURL : option string;
  ThumbnailURL : option string;
  Descriptive : string
}.

(** The assignments [video.VideoURL = &s] and [video.ThumbnailURL = &s] on a
    record held by value. *)
Definition setVideoURL (video : Video) (s : string) : Video :=
  mkVideo (ID video) (UserID video) (Some s) (ThumbnailURL video) (Descriptive video).
Definition setThumbnailURL (video : Video) (s : string) : Video :=
  mkVideo (ID video) (UserID video) (VideoURL video) (Some s) (Descriptive video).

(** The object-store client.  Presigning a GET is a function of bucket, key
    and validity window that yields a URL or fails; uploading is decided by
    the remote service. *)
Record S3Client : Type := mkS3Client {
  PresignGetObject : string -> string -> Duration -> outcome string;
  PutObject : string -> string -> string -> string -> option string
    (* bucket, key, path of the body, content type; [Some msg] is a failure *)
}.

(** The fields of [apiConfig] that the handlers use. *)
Record apiConfig : Type := mkApiConfig {
  jwtSecret : string;
  s3Client : S3Client;
  s3Bucket : string;
  assetsRoot : string;
  port : string
}.

(** ** Reference codec ([handler_upload_video.go]) *)

Definition generatePresignedURL (client : S3Client) (bucket key : string)
    (expireTime : Duration) : string * option error :=
  match PresignGetObject client bucket key expireTime with
  | Failed msg => ("", Some (External msg))
  | Done url => (url, None)
  end.

(** [video] is the method's own copy of the record (a Go struct passed by
    value), and [video.VideoURL = &url] points that copy's field at a new
    string: the string the caller's record points at is never written. *)
Definition dbVideoToSignedVideo (cfg : apiConfig) (video : Video) : Video * option error :=
  match VideoURL video with
  | None => (video, None)
  | Some u =>
      if (u =? "")%string then (video, None)
      else
        let raw := TrimSpace u in
        if Contains raw "://" then (video, None)
        else
          let parts := SplitN raw "," 2 in
          if negb (length parts =? 2)%nat then (video, Some (errMalformed raw))
          else
            let bucket := TrimSpace (nth 0 parts "") in
            let key := TrimSpace (nth 1 parts "") in
            if (bucket =? "")%string || (key =? "")%string
            then (video, Some (errEmptyPart raw))
            else
              match generatePresignedURL (s3Client cfg) bucket key (15 * Minute) with
              | (_, Some err) => (video, Some err)
              | (url, None) => (setVideoURL video url, None)
              end
  end.

(** A presigner that always answers, and one that never does; used to run
    the definitions on concrete inputs. *)
Definition samplePresign (bucket key : string) (ttl : Duration) : outcome string :=
  Done ("https://" ++ bucket ++ ".s3.example/" ++ key ++ "?X-Amz-Signature=5a1f").
Definition failingPresign (bucket key : string) (ttl : Duration) : outcome string :=
  Failed "failed to retrieve credentials".
Definition sampleCfg : apiConfig :=
  mkApiConfig "secret" (mkS3Client samplePresign (fun _ _ _ _ => None)) "tubely-93745" "./assets" "8091".
Definition offlineCfg : apiConfig :=
  mkApiConfig "secret" (mkS3Client failingPresign (fun _ _ _ _ => Some "no route to host"))
              "tubely-93745" "./assets" "8091".
Definition sampleVideo (ref : option string) : Video :=
  mkVideo 7 42 ref None "Boots learns to swim".

(** ** Orientation classifier ([get_video_aspect_ratio.go]) *)

(** The conversion [float64(n)] of a Go [int]: exact up to 2^53 and rounded
    to nearest beyond, which is what [of_uint63] does on magnitudes below
    2^63; the one remaining [int64], -2^63, is a power of two. *)
Definition float64_of_int (n : Z) : float :=
  let a := Z.abs n in
  let m := if a <? 2 ^ 63 then PrimFloat.of_uint63 (Uint63.of_Z a)
           else (PrimFloat.of_uint63 (Uint63.of_Z (a / 2)) * 2)%float in
  if n <? 0 then (- m)%float else m.

Definition almostEqual (a b tol : float) : bool :=
  (PrimFloat.abs (a - b) <=? tol)%float.

(** The element type of [ffprobeOutput.Streams]. *)
Record ffprobeStream : Type := mkStream { Width : Z; Height : Z }.
Record ffprobeOutput : Type := mkProbe { Streams : list ffprobeStream }.

(** The tail of [getVideoAspectRatio], "Compare with tolerance": the
    specification's [classify].  The constants [16.0/9.0], [9.0/16.0] and
    [0.01] are the binary64 values nearest to the exact ones. *)
Definition classifyOrientation (width height : Z) : string :=
  let ratio := (float64_of_int width / float64_of_int height)%float in
  if almostEqual ratio (16 / 9)%float 0.01%float then "16:9"
  else if almostEqual ratio (9 / 16)%float 0.01%float then "9:16"
  else "other".

(** The tolerance test as the specification words it, in exact rational
    arithmetic: [|w/h - num/den| <= 1/100].  It is what the binary64 test of
    the code is compared with. *)
Definition exactNear (w h num den : Z) : Prop :=
  QArith_base.Qle
    (Qabs.Qabs (QArith_base.Qminus (QArith_base.Qdiv (QArith_base.inject_Z w)
                                                    (QArith_base.inject_Z h))
                                   (QArith_base.Qdiv (QArith_base.inject_Z num)
                                                     (QArith_base.inject_Z den))))
    (QArith_base.Qmake 1 100).

(** ** External collaborators

    Everything the handlers call outside these files, as functions of their
    arguments: the answers may be anything, the handlers' reaction to them is
    what is modelled. *)

(** One run of the remuxing tool: how it exited, and whether it left a file
    at its output path. *)
Record FfmpegRun : Type := mkFfmpegRun {
  ffmpegExit : option string;   (* [Some msg]: [cmd.Run] returned an error *)
  ffmpegWrote : bool
}.

Record Externals : Type := mkExternals {
  uuid_Parse : string -> outcome UUID;
  uuid_String : UUID -> string;
  GetBearerToken : list (string * string) -> outcome string;
  ValidateJWT : string -> string -> outcome UUID;
  ParseMediaType : string -> outcome string;     (* the media type only *)
  ToLower : string -> string;                    (* strings.ToLower: Unicode case tables *)
  filepath_Join : string -> string -> string;
  CreateTemp : string -> string -> outcome string;   (* name of the new file *)
  Create : string -> option string;
  Copy : string -> string -> option string;      (* destination path, bytes *)
  Seek : string -> option string;
  Open : string -> option string;
  ffprobe : string -> outcome string;            (* standard output *)
  json_Unmarshal : string -> outcome ffprobeOutput;
  ffmpeg : string -> string -> FfmpegRun;        (* input path, output path *)
  rand_Read : outcome (nat -> Byte.byte);        (* the i-th byte delivered *)
  UpdateVideo : Video -> option string
}.

Definition getVideoAspectRatio (ext : Externals) (filePath : string) : string * option error :=
  match ffprobe ext filePath with
  | Failed msg => ("", Some (ErrorfW "ffprobe failed: " (External msg)))
  | Done out =>
      match json_Unmarshal ext out with
      | Failed msg => ("", Some (ErrorfW "failed to parse ffprobe output: " (External msg)))
      | Done probe =>
          match Streams probe with
          | [] => ("", Some (Errorf "no streams found"))
          | stream0 :: _ =>
              let width := Width stream0 in
              let height := Height stream0 in
              if (width =? 0) || (height =? 0)
              then ("", Some (Errorf "invalid width/height in video metadata"))
              else (classifyOrientation width height, None)
          end
      end
  end.

(** ** [encoding/hex] *)

Definition hextable : string := "0123456789abcdef".

Definition hexdigit (n : N) : ascii :=
  match String.get (N.to_nat n) hextable with
  | Some c => c
  | None => "0"%char
  end.

(** [hex.EncodeToString]: two digits per byte, high nibble first. *)
Fixpoint EncodeToString (src : list Byte.byte) : string :=
  match src with
  | [] => ""
  | v :: rest =>
      String (hexdigit (N.shiftr (Byte.to_N v) 4))
        (String (hexdigit (N.land (Byte.to_N v) 15)) (EncodeToString rest))
  end.

(** ** Requests and responses *)

(** One part of a multipart form: its Content-Type header and its bytes.
    ([r.FormFile] parses the form; a part too large for memory is spooled by
    the parser to a file of its own, which the HTTP server removes once the
    handler has returned.  That file is not modelled.) *)
Record Part : Type := mkPart { partContentType : string; partBody : string }.

Record Request : Type := mkRequest {
  PathValue : string -> string;
  Header : list (string * string);
  FormFile : string -> outcome Part
}.

Inductive Body : Type :=
  | ErrorBody (msg : string) (cause : option error)
  | JSONBody (payload : Video).

Record Response : Type := mkResponse { status : Z; body : Body }.

Definition StatusOK : Z := 200.
Definition StatusBadRequest : Z := 400.
Definition StatusUnauthorized : Z := 401.
Definition StatusNotFound : Z := 404.
Definition StatusInternalServerError : Z := 500.
Definition StatusBadGateway : Z := 502.

(** Modelled from the spec: [respondWithError] and [respondWithJSON] are
    defined in a file that is not among those embedded here.  Section 7:
    every failure is surfaced as a structured error with a status, a short
    message and, where available, the underlying cause; section 6: success is
    the JSON video record. *)
Definition respondWithError (code : Z) (msg : string) (err : option error) : Response :=
  mkResponse code (ErrorBody msg err).
(** Modelled from the spec: [respondWithJSON], as described above. *)
Definition respondWithJSON (code : Z) (payload : Video) : Response :=
  mkResponse code (JSONBody payload).

(** ** The world a handler acts on *)

Record World : Type := mkWorld {
  records : gmap UUID Video;          (* the record store behind [cfg.db] *)
  disk : gset string;                 (* paths of the files on the local disk *)
  objects : gset (string * string)    (* bucket and key of the stored objects *)
}.

(** What a handler does to the world, in the order it does it. *)
Inductive Event : Type :=
  | EvPrintln (items : list string)
  | EvCreateFile (path : string)
  | EvWriteFile (path : string)
  | EvRemove (path : string)
  | EvClose (name : string)
  | EvPutObject (bucket key bodyPath contentType : string)
  | EvUpdateVideo (video : Video)
  | EvSign (video : Video).            (* a call of [cfg.dbVideoToSignedVideo] *)

(** The calls a handler has deferred. *)
Inductive Deferred : Type :=
  | DClose (name : string)
  | DRemove (path : string).

Record State : Type := mkState {
  world : World;
  trace : list Event;         (* oldest first *)
  deferred : list Deferred    (* most recently deferred first *)
}.

(** A handler body: a state transformer that either goes on with a value or
    has written its response and returned. *)
Definition M (A : Type) : Type := State -> State * (Response + A).

Definition ret {A : Type} (a : A) : M A := fun st => (st, inr a).
Definition exit {A : Type} (resp : Response) : M A := fun st => (st, inl resp).
Definition bind {A B : Type} (m : M A) (k : A -> M B) : M B :=
  fun st =>
    match m st with
    | (st', inl resp) => (st', inl resp)
    | (st', inr a) => k a st'
    end.

Notation "x <- m ;; k" := (bind m (fun x => k))
  (at level 100, m at next level, right associativity).
Notation "m ;;; k" := (bind m (fun _ => k))
  (at level 100, right associativity).

Definition emit (e : Event) : M unit :=
  fun st => (mkState (world st) (trace st ++ [e]) (deferred st), inr tt).
Definition defer (d : Deferred) : M unit :=
  fun st => (mkState (world st) (trace st) (d :: deferred st), inr tt).
Definition getWorld : M World := fun st => (st, inr (world st)).
Definition setWorld (w : World) : M unit :=
  fun st => (mkState w (trace st) (deferred st), inr tt).

(** [v, err := f(...); if err != nil { respondWithError(...); return }] for
    an external call without effect on the world. *)
Definition orRespond {A : Type} (o : outcome A) (onError : option error -> Response) : M A :=
  match o with
  | Done a => ret a
  | Failed msg => exit (onError (Some (External msg)))
  end.

(** The same for a call that returns only an error. *)
Definition orRespondErr (o : option string) (onError : option error -> Response) : M unit :=
  match o with
  | None => ret tt
  | Some msg => exit (onError (Some (External msg)))
  end.

Definition addFile (path : string) (w : World) : World :=
  mkWorld (records w) ({[ path ]} ∪ disk w) (objects w).
Definition removeFile (path : string) (w : World) : World :=
  mkWorld (records w) (disk w ∖ {[ path ]}) (objects w).
Definition addObject (bucket key : string) (w : World) : World :=
  mkWorld (records w) (disk w) ({[ (bucket, key) ]} ∪ objects w).
Definition putRecord (video : Video) (w : World) : World :=
  mkWorld (<[ ID video := video ]> (records w)) (disk w) (objects w).

(** Running the deferred calls when the handler returns, last deferred
    first.  [os.Remove] unlinks the path if it is there; its error is
    dropped by the [defer] statement. *)
Definition runDeferred1 (d : Deferred) (st : State) : State :=
  match d with
  | DClose name => mkState (world st) (trace st ++ [EvClose name]) (deferred st)
  | DRemove path =>
      mkState (removeFile path (world st)) (trace st ++ [EvRemove path]) (deferred st)
  end.

Definition runDeferred (st : State) : State :=
  fold_left (fun s d => runDeferred1 d s) (deferred st)
            (mkState (world st) (trace st) []).

(** A whole request: the body, then the deferred calls. *)
Definition serve (handler : M Response) (w : World) : State * Response :=
  match handler (mkState w [] []) with
  | (st, inl resp) => (runDeferred st, resp)
  | (st, inr resp) => (runDeferred st, resp)
  end.

(** [if cond { respondWithError(...); return }] *)
Definition respondIf (cond : bool) (resp : Response) : M unit :=
  if cond then exit resp else ret tt.

(** The calls that act on the world. *)

(** Modelled from the spec: [cfg.db.GetVideo] and [cfg.db.UpdateVideo] belong
    to [internal/database], which is not among the files embedded here.
    Section 6: [get(id) -> record | NotFound] and
    [update(record) -> ok | PersistenceFailure]; whether an update succeeds is
    up to the store ([UpdateVideo] of the externals), and a successful one
    replaces the record stored under the record's identifier. *)
Definition dbGetVideo (videoID : UUID) : M (outcome Video) :=
  w <- getWorld ;;
  ret (match records w !! videoID with
       | Some video => Done video
       | None => Failed "sql: no rows in result set"
       end).

(** Modelled from the spec: [cfg.db.UpdateVideo], as described above. *)
Definition dbUpdateVideo (ext : Externals) (video : Video) : M (option string) :=
  match UpdateVideo ext video with
  | Some msg => ret (Some msg)
  | None =>
      w <- getWorld ;;
      setWorld (putRecord video w) ;;;
      emit (EvUpdateVideo video) ;;;
      ret None
  end.

(** [os.CreateTemp(dir, pattern)]: a new file under a name of the system's
    choosing. *)
Definition osCreateTemp (ext : Externals) (dir pattern : string) : M (outcome string) :=
  match CreateTemp ext dir pattern with
  | Failed msg => ret (Failed msg)
  | Done name =>
      w <- getWorld ;;
      setWorld (addFile name w) ;;;
      emit (EvCreateFile name) ;;;
      ret (Done name)
  end.

(** [os.Create(name)]: the file is created, or truncated if it is there. *)
Definition osCreate (ext : Externals) (name : string) : M (option string) :=
  match Create ext name with
  | Some msg => ret (Some msg)
  | None =>
      w <- getWorld ;;
      setWorld (addFile name w) ;;;
      emit (EvCreateFile name) ;;;
      ret None
  end.

(** [io.Copy(dst, file)] *)
Definition ioCopy (ext : Externals) (dst : string) (src : string) : M (option string) :=
  match Copy ext dst src with
  | Some msg => ret (Some msg)
  | None => emit (EvWriteFile dst) ;;; ret None
  end.

(** [os.Open(name)] fails on a path that is not there, and may fail
    otherwise. *)
Definition osOpen (ext : Externals) (name : string) : M (option string) :=
  w <- getWorld ;;
  if decide (name ∈ disk w) then ret (Open ext name)
  else ret (Some "no such file or directory").

(** [cfg.s3Client.PutObject(ctx, &s3.PutObjectInput{...})] *)
Definition s3PutObject (client : S3Client) (bucket key bodyPath contentType : string)
    : M (option string) :=
  match PutObject client bucket key bodyPath contentType with
  | Some msg => ret (Some msg)
  | None =>
      w <- getWorld ;;
      setWorld (addObject bucket key w) ;;;
      emit (EvPutObject bucket key bodyPath contentType) ;;;
      ret None
  end.

(** ** Faststart remuxer ([preprocess_video.go]) *)

Definition processVideoForFastStart (ext : Externals) (filePath : string)
    : M (string * option error) :=
  let outputPath := filePath ++ ".processing" in
  let run := ffmpeg ext filePath outputPath in
  (if ffmpegWrote run
   then w <- getWorld ;; setWorld (addFile outputPath w) ;;; emit (EvCreateFile outputPath)
   else ret tt) ;;;
  match ffmpegExit run with
  | Some msg => ret ("", Some (ErrorfW "ffmpeg failed: " (External msg)))
  | None => ret (outputPath, None)
  end.

(** ** Upload orchestrator ([handler_upload_video.go]) *)

Definition handlerUploadVideo (cfg : apiConfig) (ext : Externals) (r : Request) : M Response :=
  let videoIDString := PathValue r "videoID" in
  videoID <- orRespond (uuid_Parse ext videoIDString)
               (respondWithError StatusBadRequest "Invalid ID") ;;
  token <- orRespond (GetBearerToken ext (Header r))
             (respondWithError StatusUnauthorized "Couldn't find JWT") ;;
  userID <- orRespond (ValidateJWT ext token (jwtSecret cfg))
              (respondWithError StatusUnauthorized "Couldn't validate JWT") ;;
  (* Get the video from DB *)
  got <- dbGetVideo videoID ;;
  video <- orRespond got (respondWithError StatusNotFound "Video not found") ;;
  (* Check ownership *)
  respondIf (negb (UserID video =? userID)%N)
    (respondWithError StatusUnauthorized "You do not own this video" None) ;;;
  (* Parse video file; the result of r.ParseMultipartForm(maxMemory) is dropped *)
  file <- orRespond (FormFile r "video")
            (respondWithError StatusBadRequest "Unable to parse form file") ;;
  defer (DClose "file") ;;;
  let contentType := partContentType file in
  respondIf (contentType =? "")%string
    (respondWithError StatusBadRequest "Missing Content-Type header" None) ;;;
  mimeType <- orRespond (ParseMediaType ext contentType)
                (respondWithError StatusBadRequest "Error getting media type") ;;
  respondIf (negb (mimeType =? "video/mp4")%string)
    (respondWithError StatusBadRequest "Video must be in mp4 format" None) ;;;
  (* Create the file on disk *)
  created <- osCreateTemp ext "" "tubely-upload.mp4" ;;
  dst <- orRespond created
           (respondWithError StatusInternalServerError "Unable to create file") ;;
  defer (DClose dst) ;;;
  defer (DRemove dst) ;;;
  (* Copy the uploaded file to the destination *)
  copied <- ioCopy ext dst (partBody file) ;;
  orRespondErr copied (respondWithError StatusInternalServerError "Failed to save file") ;;;
  (* Seek to start for re-read *)
  orRespondErr (Seek ext dst)
    (respondWithError StatusInternalServerError "failed to rewind file") ;;;
  (* Get orientation from ffprobe *)
  let '(orientation, err) := getVideoAspectRatio ext dst in
  respondIf (bool_decide (err <> None))
    (respondWithError StatusInternalServerError "Failed to get video orientation" err) ;;;
  (* Process video to faststart version *)
  processed <- processVideoForFastStart ext dst ;;
  let '(processedPath, err) := processed in
  respondIf (bool_decide (err <> None))
    (respondWithError StatusInternalServerError "Failed to process video" err) ;;;
  defer (DRemove processedPath) ;;;
  (* Open the processed file for reading *)
  opened <- osOpen ext processedPath ;;
  orRespondErr opened
    (respondWithError StatusInternalServerError "Failed to open processed video") ;;;
  defer (DClose processedPath) ;;;
  (* Generate 32-byte hex key + .mp4 *)
  random <- orRespond (rand_Read ext)
              (respondWithError StatusInternalServerError "Failed to generate key") ;;
  let b := map random (seq 0 32) in
  let key := orientation ++ "-" ++ EncodeToString b ++ ".mp4" in
  (* Put to S3 *)
  put <- s3PutObject (s3Client cfg) (s3Bucket cfg) key processedPath mimeType ;;
  orRespondErr put (respondWithError StatusBadGateway "failed to upload to s3") ;;;
  (* Update DB with S3 URL *)
  let raw := s3Bucket cfg ++ "," ++ key in
  let video := setVideoURL video raw in
  updated <- dbUpdateVideo ext video ;;
  orRespondErr updated
    (respondWithError StatusInternalServerError "failed to update video url") ;;;
  (* Turn DB value into a presigned URL for the response *)
  emit (EvSign video) ;;;
  let '(signed, err) := dbVideoToSignedVideo cfg video in
  respondIf (bool_decide (err <> None))
    (respondWithError StatusInternalServerError "failed to sign video url" err) ;;;
  ret (respondWithJSON StatusOK signed).

(** ** Thumbnail upload ([handler_upload_thumbnail.go]) *)

Definition contentTypeToExt (ext : Externals) (contentType : string) : string :=
  let lowered := ToLower ext contentType in
  if (lowered =? "image/jpeg")%string || (lowered =? "image/jpg")%string then ".jpg"
  else if (lowered =? "image/png")%string then ".png"
  else if (lowered =? "image/gif")%string then ".gif"
  else "".

Definition handlerUploadThumbnail (cfg : apiConfig) (ext : Externals) (r : Request)
    : M Response :=
  let videoIDString := PathValue r "videoID" in
  videoID <- orRespond (uuid_Parse ext videoIDString)
               (respondWithError StatusBadRequest "Invalid ID") ;;
  token <- orRespond (GetBearerToken ext (Header r))
             (respondWithError StatusUnauthorized "Couldn't find JWT") ;;
  userID <- orRespond (ValidateJWT ext token (jwtSecret cfg))
              (respondWithError StatusUnauthorized "Couldn't validate JWT") ;;
  emit (EvPrintln ["uploading thumbnail for video"; uuid_String ext videoID;
                   "by user"; uuid_String ext userID]) ;;;
  (* Parse Multipart Form to get image and headers; the result of
     r.ParseMultipartForm(maxMemory) is dropped *)
  file <- orRespond (FormFile r "thumbnail")
            (respondWithError StatusBadRequest "Unable to parse form file") ;;
  defer (DClose "file") ;;;
  let contentType := partContentType file in
  respondIf (contentType =? "")%string
    (respondWithError StatusBadRequest "Missing Content-Type header" None) ;;;
  mimeType <- orRespond (ParseMediaType ext contentType)
                (respondWithError StatusBadRequest "Error getting media type") ;;
  respondIf (negb (mimeType =? "image/jpeg")%string && negb (mimeType =? "image/png")%string)
    (respondWithError StatusBadRequest "Thumbnail must be a jpeg or png" None) ;;;
  (* Get the video from DB *)
  got <- dbGetVideo videoID ;;
  video <- orRespond got (respondWithError StatusNotFound "Video not found") ;;
  (* Check ownership *)
  respondIf (negb (UserID video =? userID)%N)
    (respondWithError StatusUnauthorized "You do not own this video" None) ;;;
  (* Get the file extension from content type *)
  let extension := contentTypeToExt ext contentType in
  respondIf (extension =? "")%string
    (respondWithError StatusBadRequest "Unsupported Content-Type" None) ;;;
  (* Build the path to save the file *)
  let filename := uuid_String ext videoID ++ extension in
  let filePath := filepath_Join ext (assetsRoot cfg) filename in
  (* Create the file on disk *)
  created <- osCreate ext filePath ;;
  orRespondErr created (respondWithError StatusInternalServerError "Unable to create file") ;;;
  defer (DClose filePath) ;;;
  (* Copy the uploaded file to the destination *)
  copied <- ioCopy ext filePath (partBody file) ;;
  orRespondErr copied (respondWithError StatusInternalServerError "Failed to save file") ;;;
  (* Set the public URL for the thumbnail *)
  let publicURL := "http://localhost:" ++ port cfg ++ "/assets/" ++ filename in
  let video := setThumbnailURL video publicURL in
  (* Save updated video metadata to DB *)
  updated <- dbUpdateVideo ext video ;;
  orRespondErr updated (respondWithError StatusInternalServerError "Video update error") ;;;
  ret (respondWithJSON StatusOK video).

(** ** Observations on a run *)

(** The files a request has created, in order. *)
Definition createdFiles (tr : list Event) : list string :=
  omap (fun e => match e with EvCreateFile path => Some path | _ => None end) tr.

(** The record-store writes and the signing calls of a trace, in order. *)
Definition isStoreEvent (e : Event) : bool :=
  match e with
  | EvUpdateVideo _ | EvSign _ => true
  | _ => false
  end.
Definition storeEvents (tr : list Event) : list Event := List.filter isStoreEvent tr.

(** A lower-case hexadecimal digit. *)
Definition isHexDigit (c : ascii) : bool :=
  let n := N_of_ascii c in
  ((48 <=? n) && (n <=? 57) || (97 <=? n) && (n <=? 102))%N.

(** The value of a lower-case hexadecimal digit, and the bytes that a string
    of such digits stands for: two digits per byte, high nibble first. *)
Definition hexvalue (c : ascii) : N :=
  let n := N_of_ascii c in
  if (n <=? 57)%N then (n - 48)%N else (n - 87)%N.

Fixpoint hexbytes (s : string) : list N :=
  match s with
  | String hi (String lo rest) => (16 * hexvalue hi + hexvalue lo)%N :: hexbytes rest
  | _ => []
  end.

(** The configuration with another presigner, all else the same. *)
Definition withPresigner (cfg : apiConfig)
    (presign : string -> string -> Duration -> outcome string) : apiConfig :=
  mkApiConfig (jwtSecret cfg) (mkS3Client presign (PutObject (s3Client cfg)))
              (s3Bucket cfg) (assetsRoot cfg) (port cfg).

(** ** Sample collaborators, for running the handlers

    One record, number 7, owned by user 42; token "tok-42" is user 42's and
    "tok-43" user 43's; the probe reports one 1920x1080 stream. *)
Definition sampleBytes (i : nat) : Byte.byte :=
  match Byte.of_N (N.of_nat ((37 * i + 11) mod 256)) with
  | Some v => v
  | None => Byte.x00
  end.

Definition sampleExtWith (probe : ffprobeOutput) (run : FfmpegRun) : Externals :=
  {| uuid_Parse := fun s => if (s =? "0007")%string then Done 7%N
                            else Failed "invalid UUID length";
     uuid_String := fun id => if (id =? 7)%N then "0007" else "0042";
     GetBearerToken := fun h =>
       match h with
       | [("Authorization", v)] => Done (slice_from v 7)
       | _ => Failed "no auth header included in request"
       end;
     ValidateJWT := fun token _ =>
       if (token =? "tok-42")%string then Done 42%N
       else if (token =? "tok-43")%string then Done 43%N
       else Failed "token is malformed";
     ParseMediaType := fun s => if (s =? "video")%string
                                then Failed "mime: expected slash after first token"
                                else Done s;
     ToLower := fun s => s;
     filepath_Join := fun dir name => dir ++ "/" ++ name;
     CreateTemp := fun _ pattern => Done ("/tmp/" ++ pattern ++ "2731946");
     Create := fun _ => None;
     Copy := fun _ _ => None;
     Seek := fun _ => None;
     Open := fun _ => None;
     ffprobe := fun _ => Done "{}";
     json_Unmarshal := fun _ => Done probe;
     ffmpeg := fun _ _ => run;
     rand_Read := Done sampleBytes;
     UpdateVideo := fun _ => None |}.

Definition sampleExt : Externals :=
  sampleExtWith (mkProbe [mkStream 1920 1080]) (mkFfmpegRun None true).

(** The tool exits with an error after it has created its output file. *)
Definition brokenRemuxExt : Externals :=
  sampleExtWith (mkProbe [mkStream 1920 1080]) (mkFfmpegRun (Some "exit status 1") true).


Definition sampleRequest (token field contentType : string) : Request :=
  {| PathValue := fun name => if (name =? "videoID")%string then "0007" else "";
     Header := [("Authorization", "Bearer " ++ token)];
     FormFile := fun name => if (name =? field)%string
                             then Done (mkPart contentType "....ftypisom")
                             else Failed "http: no such file" |}.

Definition sampleWorld : World :=
  mkWorld {[ 7%N := sampleVideo None ]} ∅ ∅.

(** ** Further observations and sample values *)

(** The classification in exact arithmetic, cross-multiplied: for positive
    [h], [100 * |9 w - 16 h| <= 9 h] says [|w/h - 16/9| <= 1/100]. *)
Definition exactOrientation (w h : Z) : string :=
  if 100 * Z.abs (9 * w - 16 * h) <=? 9 * h then "16:9"
  else if 100 * Z.abs (16 * w - 9 * h) <=? 16 * h then "9:16"
  else "other".

(** [p] holds of the [n] integers from [z] on. *)
Fixpoint allFrom (n : nat) (z : Z) (p : Z -> bool) : bool :=
  match n with
  | O => true
  | S n' => p z && allFrom n' (Z.succ z) p
  end.

(** A presigner that answers every request with one and the same URL. *)
Definition constPresign (bucket key : string) (ttl : Duration) : outcome string :=
  Done "https://signed.example/v.mp4?X-Amz-Expires=900".
Definition constCfg : apiConfig :=
  mkApiConfig "secret" (mkS3Client constPresign (fun _ _ _ _ => None)) "tubely-93745" "./assets" "8091".

(** A presigner that refuses an empty bucket, an empty key and any validity
    window other than fifteen minutes, and answers like [samplePresign]
    otherwise. *)
Definition strictPresign (bucket key : string) (ttl : Duration) : outcome string :=
  if (bucket =? "")%string || (key =? "")%string || negb (ttl =? 900 * Second)
  then Failed "invalid presign request"
  else samplePresign bucket key ttl.
Definition strictCfg : apiConfig :=
  mkApiConfig "secret" (mkS3Client strictPresign (fun _ _ _ _ => None)) "tubely-93745" "./assets" "8091".

(** A byte of some entry of the table. *)
Definition tableByte (table : list (list ascii)) (x : ascii) : Prop :=
  exists e, e ∈ table /\ x ∈ e.

(** Printable ASCII, the blank excluded. *)
Definition isGraphic (x : ascii) : bool :=
  ((33 <=? N_of_ascii x) && (N_of_ascii x <=? 126))%N.


(** * Properties *)

Example TrimSpace_ex1 : TrimSpace "  mybucket, abc123.mp4 " = "mybucket, abc123.mp4".
Proof. vm_compute. reflexivity. Qed.
Example SplitN_ex1 : SplitN "bucket,key,extra" "," 2 = ["bucket"; "key,extra"].
Proof. vm_compute. reflexivity. Qed.
Example SplitN_ex2 : SplitN "not-a-valid-ref" "," 2 = ["not-a-valid-ref"].
Proof. vm_compute. reflexivity. Qed.
Example SplitN_ex3 : SplitN "a,b,c" "," (-1) = ["a"; "b"; "c"].
Proof. vm_compute. reflexivity. Qed.
Example Contains_ex : Contains "https://cdn.example/v.mp4" "://" = true.
Proof. vm_compute. reflexivity. Qed.
Example resolve_ex1 :
  dbVideoToSignedVideo sampleCfg (sampleVideo (Some "mybucket, abc123.mp4"))
  = (sampleVideo (Some "https://mybucket.s3.example/abc123.mp4?X-Amz-Signature=5a1f"), None).
Proof. vm_compute. reflexivity. Qed.
Example resolve_ex2 :
  dbVideoToSignedVideo sampleCfg (sampleVideo (Some "not-a-valid-ref"))
  = (sampleVideo (Some "not-a-valid-ref"), Some (errMalformed "not-a-valid-ref")).
Proof. vm_compute. reflexivity. Qed.
Example resolve_ex3 :
  dbVideoToSignedVideo sampleCfg (sampleVideo (Some "https://cdn.example/v.mp4"))
  = (sampleVideo (Some "https://cdn.example/v.mp4"), None).
Proof. vm_compute. reflexivity. Qed.

(** ** Byte strings *)

Lemma String_prefix_nil (s : string) : String.prefix "" s = true.
Proof. destruct s; reflexivity. Qed.

Lemma String_prefix_cons (a b : ascii) (w s : string) :
  String.prefix (String a w) (String b s) = true <-> a = b /\ String.prefix w s = true.
Proof.
  simpl. destruct (ascii_dec a b) as [->|Hne].
  - tauto.
  - split; [discriminate | intros [? _]; contradiction].
Qed.

(** A one-byte pattern [c] does not occur in [String a w]: unfold once. *)
Lemma Contains_byte_cons (c a : ascii) (w : string) :
  Contains (String a w) (String c "") = false <-> c <> a /\ Contains w (String c "") = false.
Proof.
  simpl. unfold HasPrefix. simpl. destruct (ascii_dec c a) as [->|Hne].
  - rewrite String_prefix_nil. simpl. split; [discriminate | intros [? _]; contradiction].
  - simpl. tauto.
Qed.

(** A pattern without the byte [c] that matches at the head of
    [b ++ String c k] already matches at the head of [b]. *)
Lemma prefix_before_byte (w b : string) (c : ascii) (k : string) :
  Contains w (String c "") = false ->
  String.prefix w (b ++ String c k) = true ->
  String.prefix w b = true.
Proof.
  revert b. induction w as [|a w IH]; intros b Hc Hp.
  - apply String_prefix_nil.
  - apply Contains_byte_cons in Hc as [Hne Hc].
    destruct b as [|b0 b]; simpl String.append in Hp.
    + apply String_prefix_cons in Hp as [-> _]. contradiction.
    + apply String_prefix_cons in Hp as [-> Hp]. apply String_prefix_cons. split; [reflexivity|].
      apply (IH b Hc Hp).
Qed.

(** An occurrence of [w] in [b ++ String c k] lies within [b] or within [k]
    when [w] is non-empty and has no byte [c]. *)
Lemma Contains_app_byte (w b : string) (c : ascii) (k : string) :
  w <> "" ->
  Contains w (String c "") = false ->
  Contains b w = false -> Contains k w = false ->
  Contains (b ++ String c k) w = false.
Proof.
  intros Hw Hc. induction b as [|b0 b IH]; intros Hb Hk.
  - simpl. rewrite Hk, orb_false_r. unfold HasPrefix.
    destruct w as [|a w]; [contradiction|].
    apply Contains_byte_cons in Hc as [Hne _].
    simpl. destruct (ascii_dec a c) as [->|]; [contradiction | reflexivity].
  - change (Contains (String b0 b) w)
      with (HasPrefix (String b0 b) w || Contains b w) in Hb.
    apply orb_false_iff in Hb as [Hb1 Hb2].
    change (Contains (String b0 b ++ String c k) w)
      with (HasPrefix (String b0 b ++ String c k) w || Contains (b ++ String c k) w).
    rewrite (IH Hb2 Hk), orb_false_r. unfold HasPrefix in *.
    destruct (String.prefix w (String b0 b ++ String c k)) eqn:E; [|reflexivity].
    apply prefix_before_byte in E; [congruence | assumption].
Qed.

Lemma Index_absent (s : string) (c : ascii) :
  Contains s (String c "") = false -> Index s (String c "") = None.
Proof.
  induction s as [|a s IH]; intros H.
  - reflexivity.
  - apply Contains_byte_cons in H as [Hne H].
    simpl. unfold HasPrefix. simpl. destruct (ascii_dec c a); [contradiction|].
    rewrite (IH H). reflexivity.
Qed.

Lemma Index_first (a : string) (c : ascii) (b : string) :
  Contains a (String c "") = false ->
  Index (a ++ String c b) (String c "") = Some (String.length a).
Proof.
  induction a as [|x a IH]; intros H.
  - simpl. unfold HasPrefix. simpl. destruct (ascii_dec c c); [|contradiction].
    rewrite String_prefix_nil. reflexivity.
  - apply Contains_byte_cons in H as [Hne H].
    simpl. unfold HasPrefix. simpl. destruct (ascii_dec c x); [contradiction|].
    rewrite (IH H). reflexivity.
Qed.

Lemma substring_all (s : string) : String.substring 0 (String.length s) s = s.
Proof. induction s as [|a s IH]; simpl; [reflexivity | now rewrite IH]. Qed.

Lemma slice_to_app (a b : string) : slice_to (a ++ b) (String.length a) = a.
Proof.
  unfold slice_to. induction a as [|x a IH]; simpl.
  - destruct b; reflexivity.
  - now rewrite IH.
Qed.

Lemma slice_from_app (a : string) (c : ascii) (b : string) :
  slice_from (a ++ String c b) (String.length a + 1) = b.
Proof.
  unfold slice_from. induction a as [|x a IH]; simpl.
  - rewrite Nat.sub_0_r. apply substring_all.
  - exact IH.
Qed.

(** [SplitN raw "," 2] cuts at the first comma, and only there. *)
Lemma SplitN_no_comma (raw : string) :
  Contains raw "," = false -> SplitN raw "," 2 = [raw].
Proof.
  intros H. unfold SplitN. simpl. now rewrite (Index_absent _ _ H).
Qed.

Lemma SplitN_first_comma (a b : string) :
  Contains a "," = false -> SplitN (a ++ "," ++ b) "," 2 = [a; b].
Proof.
  intros H. unfold SplitN.
  change (if 2 <? 0 then _ else _) with (genSplit (a ++ String "," b) "," 2).
  unfold genSplit. rewrite (Index_first a "," b H).
  change (String.length ",") with 1%nat.
  now rewrite slice_to_app, slice_from_app.
Qed.

(** Every string either has no comma or splits at its first one. *)
Lemma first_comma_decompose (raw : string) :
  Contains raw "," = false \/
  exists a b, raw = a ++ "," ++ b /\ Contains a "," = false.
Proof.
  induction raw as [|x raw IH].
  - left. reflexivity.
  - destruct (ascii_dec "," x) as [<-|Hne].
    + right. exists "", raw. split; reflexivity.
    + destruct IH as [IH | (a & b & -> & Ha)].
      * left. apply Contains_byte_cons. split; assumption.
      * right. exists (String x a), b. split; [reflexivity|].
        apply Contains_byte_cons. split; assumption.
Qed.


(** ** Trimming *)

Section TrimFacts.
Variable table : list (list ascii).

Lemma leadingRune_None (l : list ascii) :
  leadingRune table l = None <-> forall e, e ∈ table -> ~ e `prefix_of` l.
Proof.
  unfold leadingRune. split.
  - intros H e He Hp. apply list_elem_of_In in He.
    pose proof (find_none _ _ H e He) as Hf. simpl in Hf.
    apply bool_decide_eq_false in Hf. contradiction.
  - intros H. destruct (find _ table) as [e|] eqn:E; [|reflexivity].
    apply find_some in E as [He Hp]. apply list_elem_of_In in He.
    apply bool_decide_eq_true in Hp. destruct (H e He Hp).
Qed.

Lemma leadingRune_Some (l e : list ascii) :
  leadingRune table l = Some e -> e ∈ table /\ e `prefix_of` l.
Proof.
  unfold leadingRune. intros E. apply find_some in E as [He Hp].
  split; [now apply list_elem_of_In | now apply bool_decide_eq_true in Hp].
Qed.

Lemma trimLeftFuel_stable (n : nat) (l : list ascii) :
  leadingRune table l = None -> trimLeftFuel table n l = l.
Proof. intros H. destruct n; simpl; [reflexivity | now rewrite H]. Qed.

Lemma trimLeftFuel_length (n : nat) (l : list ascii) :
  (length (trimLeftFuel table n l) <= length l)%nat.
Proof.
  revert l. induction n as [|n IH]; intros l; simpl; [lia|].
  destruct (leadingRune table l) as [e|]; [|lia].
  specialize (IH (drop (length e) l)). rewrite length_drop in IH. lia.
Qed.

Hypothesis table_nonempty : Forall (fun e => e <> []) table.

Lemma trimLeft_shrinks (l e : list ascii) :
  leadingRune table l = Some e -> (length (trimLeft table l) < length l)%nat.
Proof.
  intros E. apply leadingRune_Some in E as E'. destruct E' as [He Hp].
  assert (Hne : e <> []) by (rewrite Forall_forall in table_nonempty; auto).
  apply prefix_length in Hp.
  assert (0 < length e)%nat by (destruct e; [contradiction | simpl; lia]).
  unfold trimLeft. destruct l as [|a l]; [simpl in Hp; lia|].
  cbn [length trimLeftFuel]. rewrite E.
  pose proof (trimLeftFuel_length (length l) (drop (length e) (a :: l))) as Hlen.
  rewrite length_drop in Hlen. cbn [length] in Hlen. lia.
Qed.

Lemma trimLeft_unchanged (l : list ascii) :
  trimLeft table l = l -> leadingRune table l = None.
Proof.
  intros H. destruct (leadingRune table l) as [e|] eqn:E; [exfalso|reflexivity].
  apply trimLeft_shrinks in E. rewrite H in E. lia.
Qed.

(** The fuel is enough: nothing of the table is left at the front. *)
Lemma trimLeftFuel_done (n : nat) (l : list ascii) :
  (length l <= n)%nat -> leadingRune table (trimLeftFuel table n l) = None.
Proof.
  revert l. induction n as [|n IH]; intros l Hn.
  - destruct l; [|simpl in Hn; lia]. simpl.
    apply leadingRune_None. intros e He Hp.
    rewrite Forall_forall in table_nonempty. apply (table_nonempty e He).
    now apply prefix_nil_inv.
  - simpl. destruct (leadingRune table l) as [e|] eqn:E; [|exact E].
    apply IH. apply leadingRune_Some in E as [He Hp].
    assert (e <> []) by (rewrite Forall_forall in table_nonempty; auto).
    rewrite length_drop. destruct e; [contradiction|]. simpl. lia.
Qed.
End TrimFacts.

(** A table entry without the byte [c] that matches the head of
    [b ++ c :: k] matches the head of [b]. *)
Lemma prefix_of_before_byte (e b : list ascii) (c : ascii) (k : list ascii) :
  c ∉ e -> e `prefix_of` (b ++ c :: k)%list -> e `prefix_of` b.
Proof.
  revert b. induction e as [|a e IH]; intros b Hc Hp.
  - apply prefix_nil.
  - apply not_elem_of_cons in Hc as [Hne Hc].
    destruct b as [|b0 b]; destruct Hp as [r Hr]; simpl in Hr.
    + injection Hr as -> _. contradiction.
    + injection Hr as -> Hr. apply prefix_cons. apply (IH b Hc). now exists r.
Qed.

Lemma leadingRune_app_byte (table : list (list ascii)) (b : list ascii)
    (c : ascii) (k : list ascii) :
  Forall (fun e => c ∉ e) table ->
  leadingRune table b = None -> leadingRune table (b ++ c :: k)%list = None.
Proof.
  intros Hc Hb. apply leadingRune_None. intros e He Hp.
  rewrite Forall_forall in Hc.
  apply (proj1 (leadingRune_None table b) Hb e He).
  now apply (prefix_of_before_byte e b c k (Hc e He)).
Qed.

Lemma spaceRunes_nonempty : Forall (fun e : list ascii => e <> []) spaceRunes.
Proof. unfold spaceRunes. repeat constructor; discriminate. Qed.

Lemma spaceRunes_rev_nonempty :
  Forall (fun e : list ascii => e <> []) (map reverse spaceRunes).
Proof. unfold spaceRunes. simpl. repeat constructor; discriminate. Qed.

Lemma spaceRunes_no_comma :
  Forall (fun e : list ascii => ","%char ∉ e) spaceRunes.
Proof.
  apply Forall_forall. intros e He Hc. vm_compute in He.
  repeat (apply elem_of_cons in He as [->|He];
          [repeat (apply elem_of_cons in Hc as [Hc|Hc]; [discriminate Hc|]);
           now apply elem_of_nil in Hc|]).
  now apply elem_of_nil in He.
Qed.

Lemma spaceRunes_rev_no_comma :
  Forall (fun e : list ascii => ","%char ∉ e) (map reverse spaceRunes).
Proof.
  apply Forall_forall. intros e He Hc. vm_compute in He.
  repeat (apply elem_of_cons in He as [->|He];
          [repeat (apply elem_of_cons in Hc as [Hc|Hc]; [discriminate Hc|]);
           now apply elem_of_nil in Hc|]).
  now apply elem_of_nil in He.
Qed.

Lemma list_ascii_of_string_app (a b : string) :
  list_ascii_of_string (a ++ b) = (list_ascii_of_string a ++ list_ascii_of_string b)%list.
Proof. induction a as [|x a IH]; simpl; [reflexivity | now rewrite IH]. Qed.

Lemma trimRight_length (table : list (list ascii)) (l : list ascii) :
  (length (trimRight table l) <= length l)%nat.
Proof.
  unfold trimRight, trimLeft. rewrite length_reverse.
  etransitivity; [apply trimLeftFuel_length|]. now rewrite length_reverse.
Qed.

(** A string that [TrimSpace] leaves alone neither starts nor ends with
    white space. *)
Lemma TrimSpace_unchanged (s : string) :
  TrimSpace s = s ->
  leadingRune spaceRunes (list_ascii_of_string s) = None /\
  leadingRune (map reverse spaceRunes) (reverse (list_ascii_of_string s)) = None.
Proof.
  intros H. set (l := list_ascii_of_string s).
  assert (Ht : trimRight spaceRunes (trimLeft spaceRunes l) = l).
  { subst l. transitivity (list_ascii_of_string (TrimSpace s)); [|now rewrite H].
    unfold TrimSpace. now rewrite list_ascii_of_string_of_list_ascii. }
  assert (Hlead : leadingRune spaceRunes l = None).
  { destruct (leadingRune spaceRunes l) as [e|] eqn:E; [exfalso|reflexivity].
    apply (trimLeft_shrinks _ spaceRunes_nonempty) in E.
    pose proof (trimRight_length spaceRunes (trimLeft spaceRunes l)) as H1.
    rewrite Ht in H1. lia. }
  split; [exact Hlead|].
  unfold trimLeft in Ht. rewrite (trimLeftFuel_stable _ _ _ Hlead) in Ht.
  apply (trimLeft_unchanged _ spaceRunes_rev_nonempty).
  unfold trimRight in Ht. apply (f_equal reverse) in Ht.
  now rewrite reverse_involutive in Ht.
Qed.

(** Joining two trimmed strings with a comma gives a trimmed string. *)
Lemma TrimSpace_join (b k : string) :
  TrimSpace b = b -> TrimSpace k = k ->
  TrimSpace (b ++ "," ++ k) = b ++ "," ++ k.
Proof.
  intros Tb Tk.
  destruct (TrimSpace_unchanged b Tb) as [Hlead _].
  destruct (TrimSpace_unchanged k Tk) as [_ Htrail].
  assert (Hl : list_ascii_of_string (b ++ "," ++ k)
               = (list_ascii_of_string b ++ ","%char :: list_ascii_of_string k)%list)
    by now rewrite list_ascii_of_string_app.
  assert (Hrev : reverse (list_ascii_of_string b ++ ","%char :: list_ascii_of_string k)%list
                 = (reverse (list_ascii_of_string k)
                      ++ ","%char :: reverse (list_ascii_of_string b))%list)
    by now rewrite reverse_app, reverse_cons, <- app_assoc.
  unfold TrimSpace. rewrite Hl. unfold trimLeft at 1.
  rewrite trimLeftFuel_stable
    by (apply leadingRune_app_byte; [exact spaceRunes_no_comma | exact Hlead]).
  unfold trimRight, trimLeft. rewrite Hrev.
  rewrite trimLeftFuel_stable
    by (apply leadingRune_app_byte; [exact spaceRunes_rev_no_comma | exact Htrail]).
  rewrite <- Hrev, reverse_involutive, <- Hl.
  apply string_of_list_ascii_of_string.
Qed.

(** ** Resolve-for-read *)

Section Resolve.
Variable cfg : apiConfig.
Variable video : Video.

(** What the last step of [dbVideoToSignedVideo] returns for a decoded
    bucket and key. *)
Let signed (bucket key : string) : Video * option error :=
  match PresignGetObject (s3Client cfg) bucket key (15 * Minute) with
  | Done url => (setVideoURL video url, None)
  | Failed msg => (video, Some (External msg))
  end.

Lemma resolve_absent :
  VideoURL video = None \/ VideoURL video = Some "" ->
  dbVideoToSignedVideo cfg video = (video, None).
Proof. unfold dbVideoToSignedVideo. intros [-> | ->]; reflexivity. Qed.

Variable u : string.
Hypothesis Hu : VideoURL video = Some u.
Hypothesis Hne : u <> "".

Lemma resolve_url :
  Contains (TrimSpace u) "://" = true ->
  dbVideoToSignedVideo cfg video = (video, None).
Proof.
  intros H. unfold dbVideoToSignedVideo. rewrite Hu.
  apply String.eqb_neq in Hne. now rewrite Hne, H.
Qed.

Hypothesis Hscheme : Contains (TrimSpace u) "://" = false.

Lemma resolve_no_comma :
  Contains (TrimSpace u) "," = false ->
  dbVideoToSignedVideo cfg video = (video, Some (errMalformed (TrimSpace u))).
Proof.
  intros H. unfold dbVideoToSignedVideo. rewrite Hu.
  apply String.eqb_neq in Hne. rewrite Hne, Hscheme.
  now rewrite (SplitN_no_comma _ H).
Qed.

Lemma resolve_compact (a b : string) :
  TrimSpace u = a ++ "," ++ b -> Contains a "," = false ->
  dbVideoToSignedVideo cfg video =
    if (TrimSpace a =? "")%string || (TrimSpace b =? "")%string
    then (video, Some (errEmptyPart (TrimSpace u)))
    else signed (TrimSpace a) (TrimSpace b).
Proof.
  intros Hraw Ha. unfold dbVideoToSignedVideo, signed, generatePresignedURL.
  rewrite Hu. apply String.eqb_neq in Hne. rewrite Hne, Hscheme.
  assert (Hs : SplitN (TrimSpace u) "," 2 = [a; b])
    by (rewrite Hraw; now apply SplitN_first_comma).
  rewrite Hs. cbn [length Nat.eqb negb nth].
  destruct ((TrimSpace a =? "")%string || (TrimSpace b =? "")%string); [reflexivity|].
  now destruct (PresignGetObject _ _ _ _).
Qed.
End Resolve.

Lemma MalformedReference_malformed (raw : string) : MalformedReference (errMalformed raw).
Proof. exists raw. now left. Qed.

Lemma MalformedReference_empty (raw : string) : MalformedReference (errEmptyPart raw).
Proof. exists raw. now right. Qed.

Lemma External_not_malformed (msg : string) : ~ MalformedReference (External msg).
Proof. intros [raw [H|H]]; discriminate H. Qed.

Lemma eqb_empty_or (a b : string) :
  (a =? "")%string || (b =? "")%string = true <-> a = "" \/ b = "".
Proof. rewrite orb_true_iff, !String.eqb_eq. tauto. Qed.

(** The validity window is fifteen minutes, in nanoseconds. *)
Lemma validity_window : 15 * Minute = 900 * Second /\ 900 * Second = 900000000000.
Proof. split; reflexivity. Qed.



(** C10.  Whenever [dbVideoToSignedVideo] returns an error, the record it
    returns with it is the one it was given. *)
Theorem dbVideoToSignedVideo_error_unchanged (cfg : apiConfig) (video video' : Video)
    (e : error) :
  dbVideoToSignedVideo cfg video = (video', Some e) -> video' = video.
Proof.
  unfold dbVideoToSignedVideo, generatePresignedURL.
  destruct (VideoURL video) as [u|]; [|discriminate].
  destruct (u =? "")%string; [discriminate|].
  destruct (Contains _ _); [discriminate|].
  destruct (negb _); [now intros [= <- _]|].
  destruct (_ || _); [now intros [= <- _]|].
  destruct (PresignGetObject _ _ _ _); [discriminate | now intros [= <- _]].
Qed.

Lemma dbVideoToSignedVideo_error_unchanged_witness :
  dbVideoToSignedVideo offlineCfg (sampleVideo (Some "mybucket,abc123.mp4"))
    = (sampleVideo (Some "mybucket,abc123.mp4"),
       Some (External "failed to retrieve credentials")) /\
  dbVideoToSignedVideo sampleCfg (sampleVideo (Some "not-a-valid-ref"))
    = (sampleVideo (Some "not-a-valid-ref"), Some (errMalformed "not-a-valid-ref")) /\
  sampleVideo (Some "mybucket,abc123.mp4") = sampleVideo (Some "mybucket,abc123.mp4").
Proof.
  split; [reflexivity|]. split; [reflexivity|].
  apply (dbVideoToSignedVideo_error_unchanged offlineCfg _ _
           (External "failed to retrieve credentials")).
  reflexivity.
Defined.

(** C3, as stated, fails: "bucket,key,extra" is not rejected.  The reference
    is cut at its first comma only, so it decodes to bucket "bucket" and key
    "key,extra" and is presigned. *)
Lemma extra_comma_not_rejected :
  dbVideoToSignedVideo sampleCfg (sampleVideo (Some "bucket,key,extra"))
    = (sampleVideo (Some "https://bucket.s3.example/key,extra?X-Amz-Signature=5a1f"), None)
  /\ ~ (exists v e, dbVideoToSignedVideo sampleCfg (sampleVideo (Some "bucket,key,extra"))
                    = (v, Some e) /\ MalformedReference e).
Proof.
  split; [reflexivity|]. intros (v & e & H & _). vm_compute in H. discriminate H.
Qed.

(** C3, amended.  A non-empty stored reference without "://" is rejected with
    a malformed-reference error exactly when its trimmed form has no comma, or
    the part before its first comma or the part after it is empty once
    trimmed.  Further commas belong to the key. *)
Theorem malformed_reference_rejected (cfg : apiConfig) (video : Video) (u : string) :
  VideoURL video = Some u -> u <> "" -> Contains (TrimSpace u) "://" = false ->
  (Contains (TrimSpace u) "," = false \/
   exists a b, TrimSpace u = a ++ "," ++ b /\ Contains a "," = false /\
               (TrimSpace a = "" \/ TrimSpace b = ""))
  <->
  (exists e, dbVideoToSignedVideo cfg video = (video, Some e) /\ MalformedReference e).
Proof.
  intros Hu Hne Hscheme. split.
  - intros [Hc | (a & b & Hraw & Ha & He)].
    + eexists. split; [exact (resolve_no_comma cfg video u Hu Hne Hscheme Hc)|].
      apply MalformedReference_malformed.
    + eexists. split; [|apply MalformedReference_empty].
      rewrite (resolve_compact cfg video u Hu Hne Hscheme a b Hraw Ha).
      apply eqb_empty_or in He. now rewrite He.
  - intros (e & R & Hm).
    destruct (first_comma_decompose (TrimSpace u)) as [Hc | (a & b & Hraw & Ha)];
      [now left | right].
    exists a, b. split; [exact Hraw|]. split; [exact Ha|].
    rewrite (resolve_compact cfg video u Hu Hne Hscheme a b Hraw Ha) in R.
    destruct ((TrimSpace a =? "")%string || (TrimSpace b =? "")%string) eqn:E.
    + now apply eqb_empty_or.
    + exfalso. destruct (PresignGetObject _ _ _ _); [discriminate R|].
      injection R as <-. now apply External_not_malformed in Hm.
Qed.

Lemma malformed_reference_rejected_witness :
  exists e, dbVideoToSignedVideo sampleCfg (sampleVideo (Some "mybucket, "))
            = (sampleVideo (Some "mybucket, "), Some e) /\ MalformedReference e.
Proof.
  apply (malformed_reference_rejected sampleCfg (sampleVideo (Some "mybucket, ")) "mybucket, ").
  - reflexivity.
  - discriminate.
  - reflexivity.
  - right. exists "mybucket", "". split; [reflexivity|]. split; [reflexivity|].
    right. reflexivity.
Defined.

(** C4, as stated, fails twice over: a bucket with surrounding white space
    comes back trimmed, and a pair whose joined form contains "://" is taken
    for an absolute URL and not decoded at all. *)
Lemma roundtrip_counterexample :
  (" media" <> "" /\ "v.mp4" <> "" /\
   Contains " media" "," = false /\ Contains "v.mp4" "," = false /\
   dbVideoToSignedVideo sampleCfg (sampleVideo (Some (" media" ++ "," ++ "v.mp4")))
     = (sampleVideo (Some "https://media.s3.example/v.mp4?X-Amz-Signature=5a1f"), None) /\
   dbVideoToSignedVideo sampleCfg (sampleVideo (Some (" media" ++ "," ++ "v.mp4")))
     <> match PresignGetObject (s3Client sampleCfg) " media" "v.mp4" (15 * Minute) with
        | Done url => (setVideoURL (sampleVideo (Some (" media" ++ "," ++ "v.mp4"))) url, None)
        | Failed msg => (sampleVideo (Some (" media" ++ "," ++ "v.mp4")), Some (External msg))
        end)
  /\
  ("s3://media" <> "" /\ "v.mp4" <> "" /\
   Contains "s3://media" "," = false /\ Contains "v.mp4" "," = false /\
   dbVideoToSignedVideo sampleCfg (sampleVideo (Some ("s3://media" ++ "," ++ "v.mp4")))
     = (sampleVideo (Some "s3://media,v.mp4"), None)).
Proof.
  split.
  - split; [discriminate|]. split; [discriminate|].
    split; [reflexivity|]. split; [reflexivity|]. split; [reflexivity|].
    intros H. vm_compute in H. discriminate H.
  - split; [discriminate|]. split; [discriminate|]. repeat split; reflexivity.
Qed.

(** C4, amended.  For non-empty [bucket] and [key] without commas, without
    leading or trailing white space and without "://", the reference
    "bucket,key" decodes to exactly that pair: whatever the client, the
    result of [dbVideoToSignedVideo] is that of presigning [bucket] and [key]
    themselves. *)
Theorem reference_roundtrip (cfg : apiConfig) (video : Video) (bucket key : string) :
  bucket <> "" -> key <> "" ->
  Contains bucket "," = false -> Contains key "," = false ->
  TrimSpace bucket = bucket -> TrimSpace key = key ->
  Contains bucket "://" = false -> Contains key "://" = false ->
  VideoURL video = Some (bucket ++ "," ++ key) ->
  dbVideoToSignedVideo cfg video =
    match PresignGetObject (s3Client cfg) bucket key (15 * Minute) with
    | Done url => (setVideoURL video url, None)
    | Failed msg => (video, Some (External msg))
    end.
Proof.
  intros Hb Hk Cb Ck Tb Tk Sb Sk Hu.
  assert (Hraw : TrimSpace (bucket ++ "," ++ key) = bucket ++ "," ++ key)
    by now apply TrimSpace_join.
  assert (Hne : bucket ++ "," ++ key <> "") by (destruct bucket; discriminate).
  assert (Hscheme : Contains (TrimSpace (bucket ++ "," ++ key)) "://" = false).
  { rewrite Hraw. apply Contains_app_byte; [discriminate | reflexivity | assumption..]. }
  rewrite (resolve_compact cfg video _ Hu Hne Hscheme bucket key Hraw Cb).
  rewrite Tb, Tk. apply String.eqb_neq in Hb, Hk. now rewrite Hb, Hk.
Qed.

Lemma reference_roundtrip_witness :
  dbVideoToSignedVideo sampleCfg (sampleVideo (Some "tubely-93745,16:9-ab12.mp4"))
  = (sampleVideo (Some "https://tubely-93745.s3.example/16:9-ab12.mp4?X-Amz-Signature=5a1f"),
     None).
Proof.
  apply (reference_roundtrip sampleCfg (sampleVideo (Some "tubely-93745,16:9-ab12.mp4"))
           "tubely-93745" "16:9-ab12.mp4");
    try discriminate; reflexivity.
Defined.

(** ** Orientation classifier *)

Example classify_1920_1080 : classifyOrientation 1920 1080 = "16:9".
Proof. vm_compute. reflexivity. Qed.
Example classify_1080_1920 : classifyOrientation 1080 1920 = "9:16".
Proof. vm_compute. reflexivity. Qed.
Example classify_1000_1000 : classifyOrientation 1000 1000 = "other".
Proof. vm_compute. reflexivity. Qed.

(** The comparison is the binary64 one.  1609/900 lies exactly 1/100 above
    16/9; the rounded quotient and difference come out just above the
    rounded tolerance, and the frame classifies as "other". *)
Example classify_1609_900 :
  classifyOrientation 1609 900 = "other" /\ (1609 * 9 - 16 * 900) * 100 = 900 * 9.
Proof. split; vm_compute; reflexivity. Qed.





(** ** Handlers *)

Arguments dbVideoToSignedVideo : simpl never.
Arguments getVideoAspectRatio : simpl never.
Arguments EncodeToString : simpl never.
Arguments contentTypeToExt : simpl never.

(** Case analysis on the innermost scrutinee that is not itself a match. *)
Ltac destruct_inner :=
  match goal with
  | |- context [match ?x with _ => _ end] =>
      lazymatch x with
      | context [match _ with _ => _ end] => fail
      | _ => destruct x eqn:?
      end
  end.

Ltac unfold_handler :=
  unfold serve, handlerUploadVideo, handlerUploadThumbnail;
  unfold bind, orRespond, orRespondErr, respondIf, dbGetVideo, osCreateTemp, osCreate,
    ioCopy, osOpen, s3PutObject, dbUpdateVideo, processVideoForFastStart,
    emit, defer, getWorld, setWorld, ret, exit;
  cbn.

Ltac all_paths := repeat (destruct_inner; cbn); unfold runDeferred; cbn.

(** The specification's sample runs: an upload declared [video/avi] is
    turned away with nothing done, and a probe that reports a zero width stops
    the pipeline with the input file removed and nothing remuxed or stored. *)
Example upload_avi_rejected :
  serve (handlerUploadVideo sampleCfg sampleExt (sampleRequest "tok-42" "video" "video/avi"))
        sampleWorld
  = (mkState sampleWorld [EvClose "file"] [],
     respondWithError StatusBadRequest "Video must be in mp4 format" None).
Proof. vm_compute. reflexivity. Qed.

Example upload_zero_width :
  let ext := sampleExtWith (mkProbe [mkStream 0 1080]) (mkFfmpegRun None true) in
  let res := serve (handlerUploadVideo sampleCfg ext
                      (sampleRequest "tok-42" "video" "video/mp4")) sampleWorld in
  snd res = respondWithError StatusInternalServerError "Failed to get video orientation"
              (Some (Errorf "invalid width/height in video metadata")) /\
  trace (fst res) = [EvCreateFile "/tmp/tubely-upload.mp42731946";
                     EvWriteFile "/tmp/tubely-upload.mp42731946";
                     EvRemove "/tmp/tubely-upload.mp42731946";
                     EvClose "/tmp/tubely-upload.mp42731946"; EvClose "file"] /\
  elements (disk (world (fst res))) = [].
Proof. repeat split; vm_compute; reflexivity. Qed.

(** C6.  A requester who is not the record's owner gets the authorization
    error, and the request has done nothing by then: no event at all, no
    deferred call, the world as it was (no temporary file, no object, the
    record untouched). *)
Theorem upload_not_owner (cfg : apiConfig) (ext : Externals) (r : Request) (w : World)
    (videoID userID : UUID) (token : string) (video : Video) :
  uuid_Parse ext (PathValue r "videoID") = Done videoID ->
  GetBearerToken ext (Header r) = Done token ->
  ValidateJWT ext token (jwtSecret cfg) = Done userID ->
  records w !! videoID = Some video ->
  UserID video <> userID ->
  let res := serve (handlerUploadVideo cfg ext r) w in
  snd res = respondWithError StatusUnauthorized "You do not own this video" None /\
  trace (fst res) = [] /\
  world (fst res) = w /\
  disk (world (fst res)) = disk w /\
  objects (world (fst res)) = objects w /\
  records (world (fst res)) = records w.
Proof.
  intros Hid Htok Hjwt Hrec Hown. unfold_handler.
  rewrite Hid. cbn. rewrite Htok. cbn. rewrite Hjwt. cbn. rewrite Hrec. cbn.
  apply N.eqb_neq in Hown. rewrite Hown. cbn. unfold runDeferred. cbn.
  repeat split; reflexivity.
Qed.

Lemma upload_not_owner_witness :
  let res := serve (handlerUploadVideo sampleCfg sampleExt
                      (sampleRequest "tok-43" "video" "video/mp4")) sampleWorld in
  snd res = respondWithError StatusUnauthorized "You do not own this video" None /\
  trace (fst res) = [] /\
  world (fst res) = sampleWorld /\
  disk (world (fst res)) = disk sampleWorld /\
  objects (world (fst res)) = objects sampleWorld /\
  records (world (fst res)) = records sampleWorld.
Proof.
  apply (upload_not_owner sampleCfg sampleExt (sampleRequest "tok-43" "video" "video/mp4")
           sampleWorld 7%N 43%N "tok-43" (sampleVideo None)).
  - reflexivity.
  - reflexivity.
  - reflexivity.
  - reflexivity.
  - discriminate.
Defined.

(** *** Thumbnail upload: the media-type check *)




(** *** Temporary files *)

(** C7 fails on the code.  The removal of the remuxed output is deferred only
    once [processVideoForFastStart] has returned without an error: when the
    tool has created its output file and then exits with an error, the
    handler answers 500 and returns, the input file is removed, and the
    output file stays on disk. *)
Theorem upload_leaks_remux_output :
  let r := sampleRequest "tok-42" "video" "video/mp4" in
  let res := serve (handlerUploadVideo sampleCfg brokenRemuxExt r) sampleWorld in
  snd res = respondWithError StatusInternalServerError "Failed to process video"
              (Some (ErrorfW "ffmpeg failed: " (External "exit status 1"))) /\
  createdFiles (trace (fst res))
    = ["/tmp/tubely-upload.mp42731946"; "/tmp/tubely-upload.mp42731946.processing"] /\
  ("/tmp/tubely-upload.mp42731946" ∉ disk (world (fst res))) /\
  ("/tmp/tubely-upload.mp42731946.processing" ∈ disk (world (fst res))) /\
  ("/tmp/tubely-upload.mp42731946.processing" ∉ disk sampleWorld).
Proof.
  cbn zeta. split; [vm_compute; reflexivity|]. split; [vm_compute; reflexivity|].
  assert (E : disk (world (fst (serve (handlerUploadVideo sampleCfg brokenRemuxExt
                (sampleRequest "tok-42" "video" "video/mp4")) sampleWorld)))
              = (({[ "/tmp/tubely-upload.mp42731946.processing" ]}
                    ∪ ({[ "/tmp/tubely-upload.mp42731946" ]} ∪ ∅))
                   ∖ {[ "/tmp/tubely-upload.mp42731946" ]})) by reflexivity.
  rewrite E. cbn [disk sampleWorld]. set_solver.
Qed.

(** On every other path the request leaves none of the files it created:
    if the tool never leaves an output file behind when it fails, whatever a
    request to the upload handler created is gone when it returns. *)
Lemma upload_cleanup (cfg : apiConfig) (ext : Externals) (r : Request) (w : World) :
  (forall input output, ffmpegExit (ffmpeg ext input output) <> None ->
                        ffmpegWrote (ffmpeg ext input output) = false) ->
  let st := fst (serve (handlerUploadVideo cfg ext r) w) in
  forall path, path ∈ createdFiles (trace st) -> path ∉ disk (world st).
Proof.
  intros Htool. unfold_handler. all_paths; intros path Hin; cbn in Hin;
    try (apply elem_of_nil in Hin; contradiction);
    try match goal with
        | H : ffmpegExit (ffmpeg ext ?i ?o) = Some _, H' : ffmpegWrote (ffmpeg ext ?i ?o) = true |- _ =>
            exfalso; rewrite (Htool i o) in H'; [discriminate | congruence]
        end;
    set_solver.
Qed.

(** *** What reaches the record store *)

(** The presigner has no part in what a request does to the world: with any
    other presigner in the configuration the run ends in the same state, with
    the same events in the same order. *)
Lemma upload_presigner_irrelevant (cfg : apiConfig) (ext : Externals) (r : Request)
    (w : World) (presign : string -> string -> Duration -> outcome string) :
  fst (serve (handlerUploadVideo (withPresigner cfg presign) ext r) w)
  = fst (serve (handlerUploadVideo cfg ext r) w).
Proof.
  unfold withPresigner. unfold_handler. all_paths; reflexivity.
Qed.

(** C5.  Whatever the collaborators answer, a request to the upload handler
    either never writes to the record store and never signs, or writes
    exactly once and signs exactly once, afterwards.  What it writes is the
    record it read under the request's identifier with its location reference
    set to "bucket,key", the key being the prober's tag, a hyphen, the
    hexadecimal encoding of the 32 random bytes and ".mp4"; all other fields
    are as read.  What it signs is that same record, for the response only:
    the response is the signed record or the signing error, and the store
    holds the compact reference whatever URL the signing produced.  The
    records stored and the events of the run are the same with any other
    presigner. *)
Theorem upload_persists_compact_reference (cfg : apiConfig) (ext : Externals)
    (r : Request) (w : World) :
  let res := serve (handlerUploadVideo cfg ext r) w in
  let st := fst res in
  ((storeEvents (trace st) = [] /\ records (world st) = records w) \/
   (exists (videoID : UUID) (video0 : Video) (dst tag : string) (random : nat -> Byte.byte),
      uuid_Parse ext (PathValue r "videoID") = Done videoID /\
      records w !! videoID = Some video0 /\
      CreateTemp ext "" "tubely-upload.mp4" = Done dst /\
      getVideoAspectRatio ext dst = (tag, None) /\
      rand_Read ext = Done random /\
      let key := tag ++ "-" ++ EncodeToString (map random (seq 0 32)) ++ ".mp4" in
      let stored := mkVideo (ID video0) (UserID video0) (Some (s3Bucket cfg ++ "," ++ key))
                      (ThumbnailURL video0) (Descriptive video0) in
      storeEvents (trace st) = [EvUpdateVideo stored; EvSign stored] /\
      records (world st) = <[ ID video0 := stored ]> (records w) /\
      snd res = match dbVideoToSignedVideo cfg stored with
                | (signed, None) => respondWithJSON StatusOK signed
                | (_, Some err) =>
                    respondWithError StatusInternalServerError
                      "failed to sign video url" (Some err)
                end)) /\
  (forall presign : string -> string -> Duration -> outcome string,
      let st' := fst (serve (handlerUploadVideo (withPresigner cfg presign) ext r) w) in
      records (world st') = records (world st) /\ trace st' = trace st).
Proof.
  cbn zeta. split.
  2: { intros presign. now rewrite upload_presigner_irrelevant. }
  unfold_handler. all_paths;
    first [ left; split; reflexivity
          | right;
            match goal with
            | Hp : getVideoAspectRatio _ _ = (_, ?e) |- _ =>
                destruct e; [discriminate|]
            end;
            do 5 eexists;
            split; [reflexivity|]; split; [eassumption|];
            split; [reflexivity|]; split; [eassumption|];
            split; [reflexivity|];
            split; [reflexivity|]; split; [reflexivity|];
            unfold setVideoURL in *;
            match goal with
            | H : dbVideoToSignedVideo _ _ = _ |- _ => rewrite H
            end;
            match goal with
            | H : bool_decide (?o <> None) = _ |- _ => destruct o; [|]; try discriminate H
            end; reflexivity ].
Qed.

(** *** The storage key *)

Lemma hexdigit_high (v : Byte.byte) : isHexDigit (hexdigit (N.shiftr (Byte.to_N v) 4)) = true.
Proof. destruct v; reflexivity. Qed.

Lemma hexdigit_low (v : Byte.byte) : isHexDigit (hexdigit (N.land (Byte.to_N v) 15)) = true.
Proof. destruct v; reflexivity. Qed.

Lemma EncodeToString_length (src : list Byte.byte) :
  String.length (EncodeToString src) = (2 * length src)%nat.
Proof.
  induction src as [|v src IH]; [reflexivity|].
  change (String.length (EncodeToString (v :: src)))
    with (S (S (String.length (EncodeToString src)))).
  rewrite IH. cbn [length]. lia.
Qed.

Lemma EncodeToString_hex (src : list Byte.byte) :
  forallb isHexDigit (list_ascii_of_string (EncodeToString src)) = true.
Proof.
  induction src as [|v src IH]; [reflexivity|].
  change (EncodeToString (v :: src))
    with (String (hexdigit (N.shiftr (Byte.to_N v) 4))
            (String (hexdigit (N.land (Byte.to_N v) 15)) (EncodeToString src))).
  cbn [list_ascii_of_string forallb].
  now rewrite hexdigit_high, hexdigit_low, IH.
Qed.

(** Decoding the digits gives the bytes back. *)
Lemma hexvalue_byte (v : Byte.byte) :
  (16 * hexvalue (hexdigit (N.shiftr (Byte.to_N v) 4))
   + hexvalue (hexdigit (N.land (Byte.to_N v) 15)) = Byte.to_N v)%N.
Proof. destruct v; reflexivity. Qed.

Lemma EncodeToString_decodes (src : list Byte.byte) :
  hexbytes (EncodeToString src) = map Byte.to_N src.
Proof.
  induction src as [|v src IH]; [reflexivity|].
  change (EncodeToString (v :: src))
    with (String (hexdigit (N.shiftr (Byte.to_N v) 4))
            (String (hexdigit (N.land (Byte.to_N v) 15)) (EncodeToString src))).
  cbn [hexbytes map]. now rewrite hexvalue_byte, IH.
Qed.

Lemma String_length_app (a b : string) :
  String.length (a ++ b) = (String.length a + String.length b)%nat.
Proof. induction a as [|x a IH]; simpl; [reflexivity | now f_equal]. Qed.

(** C8.  When an upload succeeds and the probe classified the stored input as
    16:9: the request's identifier parsed, the record read under it is owned
    by the caller, and the key is "16:9-", then the hexadecimal encoding of
    the 32 bytes read from the random source, then ".mp4".  The encoding is
    64 lower-case hexadecimal digits which, read two by two, high nibble
    first, are the 32 bytes; the key is 73 bytes long.  The object is stored
    under that key, and the record store holds, under the record's
    identifier, the record as read with its location reference set to
    "<bucket>,<key>".  The response carries that record resolved for
    reading. *)
Theorem upload_success_key (cfg : apiConfig) (ext : Externals) (r : Request) (w : World) :
  let res := serve (handlerUploadVideo cfg ext r) w in
  status (snd res) = StatusOK ->
  (forall dst, CreateTemp ext "" "tubely-upload.mp4" = Done dst ->
               getVideoAspectRatio ext dst = ("16:9", None)) ->
  exists (videoID userID : UUID) (token : string) (video0 : Video)
         (random : nat -> Byte.byte),
    uuid_Parse ext (PathValue r "videoID") = Done videoID /\
    GetBearerToken ext (Header r) = Done token /\
    ValidateJWT ext token (jwtSecret cfg) = Done userID /\
    records w !! videoID = Some video0 /\
    UserID video0 = userID /\
    rand_Read ext = Done random /\
    let b := map random (seq 0 32) in
    let hexpart := EncodeToString b in
    let key := "16:9-" ++ hexpart ++ ".mp4" in
    let reference := s3Bucket cfg ++ "," ++ key in
    let stored := mkVideo (ID video0) (UserID video0) (Some reference)
                    (ThumbnailURL video0) (Descriptive video0) in
    length b = 32%nat /\
    String.length hexpart = 64%nat /\
    forallb isHexDigit (list_ascii_of_string hexpart) = true /\
    hexbytes hexpart = map Byte.to_N b /\
    String.length key = 73%nat /\
    (s3Bucket cfg, key) ∈ objects (world (fst res)) /\
    EvUpdateVideo stored ∈ trace (fst res) /\
    records (world (fst res)) !! ID video0 = Some stored /\
    dbVideoToSignedVideo cfg stored = (fst (dbVideoToSignedVideo cfg stored), None) /\
    snd res = respondWithJSON StatusOK (fst (dbVideoToSignedVideo cfg stored)).
Proof.
  cbn zeta. unfold_handler. all_paths; intros Hok Hprobe; try discriminate Hok.
  all: match goal with
       | Hp : getVideoAspectRatio _ ?dst = _ |- _ =>
           rewrite (Hprobe dst eq_refl) in Hp; injection Hp as <- <-
       end.
  all: match goal with
       | Ho : negb (UserID _ =? _)%N = false |- _ =>
           apply negb_false_iff, N.eqb_eq in Ho
       end.
  all: do 5 eexists.
  all: split; [reflexivity|]; split; [reflexivity|]; split; [eassumption|].
  all: split; [eassumption|]; split; [assumption|]; split; [reflexivity|].
  all: split; [reflexivity|].
  all: split; [now rewrite EncodeToString_length|].
  all: split; [apply EncodeToString_hex|].
  all: split; [apply EncodeToString_decodes|].
  all: split; [rewrite !String_length_app, EncodeToString_length; reflexivity|].
  all: split; [apply elem_of_union_l, elem_of_singleton; reflexivity|].
  all: split; [repeat first [apply list_elem_of_here | apply list_elem_of_further]|].
  all: split; [apply lookup_insert_eq|].
  all: unfold setVideoURL in *.
  all: match goal with
       | H : dbVideoToSignedVideo ?c ?v = _ |- context [dbVideoToSignedVideo ?c ?v'] =>
           change v' with v; rewrite H
       end.
  all: match goal with
       | H : bool_decide (?o <> None) = _ |- _ => destruct o; [|]; try discriminate H
       end.
  all: split; reflexivity.
Qed.

Lemma upload_success_key_witness :
  let res := serve (handlerUploadVideo sampleCfg sampleExt
                      (sampleRequest "tok-42" "video" "video/mp4")) sampleWorld in
  let key := "16:9-0b30557a9fc4e90e33587da2c7ec11365b80a5caef14395e83a8cdf2173c6186.mp4" in
  records (world (fst res)) !! 7%N
    = Some (mkVideo 7 42 (Some ("tubely-93745," ++ key)) None "Boots learns to swim") /\
  (("tubely-93745", key) ∈ objects (world (fst res))).
Proof.
  destruct (upload_success_key sampleCfg sampleExt
              (sampleRequest "tok-42" "video" "video/mp4") sampleWorld)
    as (videoID & userID & token & video0 & random & Hid & _ & _ & Hrec & _ & Hrand & H).
  - vm_compute. reflexivity.
  - intros dst _. vm_compute. reflexivity.
  - injection Hid as <-. injection Hrand as <-.
    assert (Hv : video0 = sampleVideo None).
    { change (records sampleWorld !! 7%N) with (Some (sampleVideo None)) in Hrec.
      now injection Hrec. }
    subst video0. cbn zeta in H.
    destruct H as (_ & _ & _ & _ & _ & Hobj & _ & Hstored & _).
    split; [exact Hstored | exact Hobj].
Defined.

(** * Further properties *)

(** ** The prober *)

Lemma classifyOrientation_tag (w h : Z) :
  classifyOrientation w h = "16:9" \/ classifyOrientation w h = "9:16" \/
  classifyOrientation w h = "other".
Proof.
  unfold classifyOrientation.
  destruct (almostEqual _ _ _); [now left|].
  destruct (almostEqual _ _ _); [right; now left | right; now right].
Qed.

Lemma getVideoAspectRatio_tag (ext : Externals) (filePath s : string) :
  getVideoAspectRatio ext filePath = (s, None) ->
  s = "16:9" \/ s = "9:16" \/ s = "other".
Proof.
  unfold getVideoAspectRatio.
  destruct (ffprobe ext filePath) as [out|msg]; [|discriminate].
  destruct (json_Unmarshal ext out) as [[streams]|msg]; [|discriminate].
  cbn [Streams]. destruct streams as [|stream0 rest]; [discriminate|].
  destruct (_ || _); [discriminate|].
  intros [= <-]. apply classifyOrientation_tag.
Qed.

(** X1.  [getVideoAspectRatio] succeeds exactly when the tool ran, its output
    parsed, and the first stream has a non-zero width and a non-zero height;
    the answer is then the classification of that first stream (further
    streams are not looked at) and one of the three tags.  With any error the
    string returned is empty. *)
Theorem getVideoAspectRatio_outcome (ext : Externals) (filePath : string) :
  (forall s, getVideoAspectRatio ext filePath = (s, None) <->
     exists out stream0 rest,
       ffprobe ext filePath = Done out /\
       json_Unmarshal ext out = Done (mkProbe (stream0 :: rest)) /\
       Width stream0 <> 0 /\ Height stream0 <> 0 /\
       s = classifyOrientation (Width stream0) (Height stream0)) /\
  (forall s, getVideoAspectRatio ext filePath = (s, None) ->
     s = "16:9" \/ s = "9:16" \/ s = "other") /\
  (forall s e, getVideoAspectRatio ext filePath = (s, Some e) -> s = "").
Proof.
  unfold getVideoAspectRatio.
  destruct (ffprobe ext filePath) as [out|msg].
  2:{ split; [intros s; split; [discriminate | intros (? & ? & ? & [=] & _)]|].
      split; [discriminate | now intros s e [= <- _]]. }
  destruct (json_Unmarshal ext out) as [[streams]|msg] eqn:Hj.
  2:{ split; [intros s; split; [discriminate|]|].
      - intros (? & ? & ? & [= <-] & H2 & _). rewrite Hj in H2. discriminate H2.
      - split; [discriminate | now intros s e [= <- _]]. }
  cbn [Streams]. destruct streams as [|stream0 rest].
  { split; [intros s; split; [discriminate|]|].
    - intros (? & ? & ? & [= <-] & H2 & _). rewrite Hj in H2. discriminate H2.
    - split; [discriminate | now intros s e [= <- _]]. }
  destruct ((Width stream0 =? 0) || (Height stream0 =? 0)) eqn:Hz.
  - split; [intros s; split; [discriminate|]|].
    + intros (? & s0 & ? & [= <-] & H2 & Hw & Hh & _).
      rewrite Hj in H2. injection H2 as <- <-.
      apply orb_true_iff in Hz as [Hz|Hz]; apply Z.eqb_eq in Hz; contradiction.
    + split; [discriminate | now intros s e [= <- _]].
  - apply orb_false_iff in Hz as [Hw Hh]. apply Z.eqb_neq in Hw, Hh.
    split; [intros s; split|].
    + intros [= <-]. exists out, stream0, rest. repeat split; assumption.
    + intros (? & s0 & ? & [= <-] & H2 & _ & _ & ->).
      rewrite Hj in H2. now injection H2 as <- <-.
    + split; [|discriminate]. intros s [= <-]. apply classifyOrientation_tag.
Qed.

Lemma getVideoAspectRatio_outcome_witness :
  getVideoAspectRatio (sampleExtWith (mkProbe [mkStream 0 1080]) (mkFfmpegRun None true))
    "/tmp/in.mp4"
    = ("", Some (Errorf "invalid width/height in video metadata")) /\ "" = "".
Proof.
  split; [reflexivity|].
  apply (proj2 (proj2 (getVideoAspectRatio_outcome
           (sampleExtWith (mkProbe [mkStream 0 1080]) (mkFfmpegRun None true)) "/tmp/in.mp4"))
           "" (Errorf "invalid width/height in video metadata")).
  reflexivity.
Defined.

Lemma allFrom_spec (n : nat) (z : Z) (p : Z -> bool) :
  allFrom n z p = true -> forall k, z <= k < z + Z.of_nat n -> p k = true.
Proof.
  revert z. induction n as [|n IH]; intros z H k Hk; [lia|].
  cbn [allFrom] in H. apply andb_true_iff in H as [Hz H].
  destruct (Z.eq_dec k z) as [->|Hne]; [exact Hz|].
  apply (IH (Z.succ z) H). lia.
Qed.

(** The rational tolerance test, cross-multiplied. *)
Lemma exactNear_cross (w h num den : Z) :
  0 < h -> 0 < den ->
  exactNear w h num den <-> 100 * Z.abs (w * den - num * h) <= h * den.
Proof.
  intros Hh Hd. destruct h as [|p|p]; try lia. destruct den as [|q|q]; try lia.
  unfold exactNear, QArith_base.Qle, Qabs.Qabs, QArith_base.Qminus, QArith_base.Qplus,
    QArith_base.Qopp, QArith_base.Qdiv, QArith_base.Qmult, QArith_base.Qinv,
    QArith_base.inject_Z.
  cbn [QArith_base.Qnum QArith_base.Qden].
  rewrite !Pos2Z.inj_mul. 
  replace (w * 1 * Z.pos q + - (num * 1) * Z.pos p) with (w * Z.pos q - num * Z.pos p) by lia.
  lia.
Qed.

(** ** The classifier against exact arithmetic *)

Lemma classifier_rays_checked :
  allFrom 4096 1 (fun k => (classifyOrientation (16 * k) (9 * k) =? "16:9")%string
                           && (classifyOrientation (9 * k) (16 * k) =? "9:16")%string
                           && (classifyOrientation k k =? "other")%string) = true.
Proof. vm_compute. reflexivity. Qed.

(** X2.  A frame of exactly 16:9 is classified "16:9", one of exactly 9:16
    "9:16", and a square one "other", at every scale from 16x9 up to
    65536x36864: the rounding of the quotient never decides these. *)
Theorem classifyOrientation_exact_frames (k : Z) :
  1 <= k <= 4096 ->
  classifyOrientation (16 * k) (9 * k) = "16:9" /\
  classifyOrientation (9 * k) (16 * k) = "9:16" /\
  classifyOrientation k k = "other".
Proof.
  intros Hk.
  pose proof (allFrom_spec _ _ _ classifier_rays_checked k ltac:(lia)) as H.
  cbv beta in H. apply andb_true_iff in H as [H H3]. apply andb_true_iff in H as [H1 H2].
  apply String.eqb_eq in H1, H2, H3. now repeat split.
Qed.

Lemma classifyOrientation_exact_frames_witness :
  classifyOrientation 3840 2160 = "16:9".
Proof.
  apply (proj1 (classifyOrientation_exact_frames 240 ltac:(lia))).
Defined.

Lemma classifier_grid_checked :
  allFrom 256 1 (fun w => allFrom 256 1 (fun h =>
    (classifyOrientation w h =? exactOrientation w h)%string)) = true.
Proof. vm_compute. reflexivity. Qed.

(** The cross-multiplied classification is the rational one. *)
Lemma exactOrientation_spec (w h : Z) :
  0 < h ->
  (exactOrientation w h = "16:9" <-> exactNear w h 16 9) /\
  (exactOrientation w h = "9:16" <-> ~ exactNear w h 16 9 /\ exactNear w h 9 16) /\
  (exactOrientation w h = "other" <-> ~ exactNear w h 16 9 /\ ~ exactNear w h 9 16).
Proof.
  intros Hh. unfold exactOrientation.
  rewrite (exactNear_cross w h 16 9 Hh ltac:(lia)), (exactNear_cross w h 9 16 Hh ltac:(lia)).
  replace (w * 9 - 16 * h) with (9 * w - 16 * h) by lia.
  replace (w * 16 - 9 * h) with (16 * w - 9 * h) by lia.
  replace (h * 9) with (9 * h) by lia. replace (h * 16) with (16 * h) by lia.
  destruct (Z.leb_spec (100 * Z.abs (9 * w - 16 * h)) (9 * h));
    destruct (Z.leb_spec (100 * Z.abs (16 * w - 9 * h)) (16 * h));
    repeat split; intros; try discriminate; try lia; try tauto;
    try (destruct_and?; lia).
Qed.

(** X3.  For dimensions from 1x1 up to 256x256 the binary64 comparisons
    decide as exact arithmetic does (no ratio in that range lies on a
    tolerance boundary): "16:9" exactly when [|w/h - 16/9| <= 1/100] over the
    rationals, failing that "9:16" exactly when [|w/h - 9/16| <= 1/100],
    failing both "other". *)
Theorem classifyOrientation_exact_small (w h : Z) :
  1 <= w <= 256 -> 1 <= h <= 256 ->
  (classifyOrientation w h = "16:9" <-> exactNear w h 16 9) /\
  (classifyOrientation w h = "9:16" <-> ~ exactNear w h 16 9 /\ exactNear w h 9 16) /\
  (classifyOrientation w h = "other" <-> ~ exactNear w h 16 9 /\ ~ exactNear w h 9 16).
Proof.
  intros Hw Hh.
  pose proof (allFrom_spec _ _ _ classifier_grid_checked w ltac:(lia)) as H.
  cbv beta in H. apply (allFrom_spec _ _ _) with (k := h) in H; [|lia].
  cbv beta in H. apply String.eqb_eq in H. rewrite H.
  apply exactOrientation_spec. lia.
Qed.

Lemma classifyOrientation_exact_small_witness :
  classifyOrientation 160 90 = "16:9" <-> exactNear 160 90 16 9.
Proof.
  apply (classifyOrientation_exact_small 160 90); lia.
Defined.

(** ** Resolve-for-read, further *)

(** The fields that resolving leaves alone. *)
Lemma resolve_keeps_fields (cfg : apiConfig) (video : Video) :
  let video' := fst (dbVideoToSignedVideo cfg video) in
  ID video' = ID video /\ UserID video' = UserID video /\
  ThumbnailURL video' = ThumbnailURL video /\ Descriptive video' = Descriptive video.
Proof.
  unfold dbVideoToSignedVideo, generatePresignedURL.
  destruct (VideoURL video) as [u|]; [|now repeat split].
  destruct (u =? "")%string; [now repeat split|].
  destruct (Contains _ _); [now repeat split|].
  destruct (negb _); [now repeat split|].
  destruct (_ || _); [now repeat split|].
  destruct (PresignGetObject _ _ _ _); now repeat split.
Qed.

(** X4.  Only the location reference can differ between the record given to
    [dbVideoToSignedVideo] and the record it returns: identifier, owner,
    thumbnail reference and descriptive fields are kept on every path. *)
Theorem dbVideoToSignedVideo_frame (cfg : apiConfig) (video : Video) :
  let video' := fst (dbVideoToSignedVideo cfg video) in
  ID video' = ID video /\ UserID video' = UserID video /\
  ThumbnailURL video' = ThumbnailURL video /\ Descriptive video' = Descriptive video.
Proof. exact (resolve_keeps_fields cfg video). Qed.

(** X5.  Resolving is idempotent: with a presigner whose URLs contain "://",
    a record that [dbVideoToSignedVideo] returned without error comes back
    unchanged, and without error, when resolved again. *)
Theorem dbVideoToSignedVideo_idempotent (cfg : apiConfig) (video video' : Video) :
  (forall bucket key ttl url,
      PresignGetObject (s3Client cfg) bucket key ttl = Done url ->
      Contains (TrimSpace url) "://" = true) ->
  dbVideoToSignedVideo cfg video = (video', None) ->
  dbVideoToSignedVideo cfg video' = (video', None).
Proof.
  intros Hurl H. pose proof H as H0.
  unfold dbVideoToSignedVideo, generatePresignedURL in H.
  destruct (VideoURL video) as [u|] eqn:Hu; [|injection H as <-; exact H0].
  destruct (u =? "")%string; [injection H as <-; exact H0|].
  destruct (Contains _ _); [injection H as <-; exact H0|].
  destruct (negb _); [discriminate H|].
  destruct (_ || _); [discriminate H|].
  destruct (PresignGetObject _ _ _ _) as [url|msg] eqn:Hp; [|discriminate H].
  injection H as <-. apply Hurl in Hp.
  apply resolve_url with (u := url); [reflexivity | | exact Hp].
  intros ->. vm_compute in Hp. discriminate Hp.
Qed.

Lemma dbVideoToSignedVideo_idempotent_witness :
  let signed := sampleVideo (Some "https://signed.example/v.mp4?X-Amz-Expires=900") in
  dbVideoToSignedVideo constCfg signed = (signed, None).
Proof.
  apply (dbVideoToSignedVideo_idempotent constCfg (sampleVideo (Some "tubely-93745,16:9-ab.mp4"))).
  - intros bucket key ttl url [= <-]. vm_compute. reflexivity.
  - vm_compute. reflexivity.
Defined.

Lemma String_app_cons (x : ascii) (a b : string) : String x a ++ b = String x (a ++ b).
Proof. reflexivity. Qed.

Lemma string_of_list_ascii_app (a b : list ascii) :
  string_of_list_ascii (a ++ b)%list = string_of_list_ascii a ++ string_of_list_ascii b.
Proof.
  induction a as [|x a IH]; [reflexivity|].
  cbn. rewrite !String_app_cons. f_equal. exact IH.
Qed.

Lemma trimLeftFuel_split (table : list (list ascii)) (n : nat) (l : list ascii) :
  exists p, l = (p ++ trimLeftFuel table n l)%list /\ Forall (tableByte table) p.
Proof.
  revert l. induction n as [|n IH]; intros l; [now exists []|].
  simpl. destruct (leadingRune table l) as [e|] eqn:E; [|now exists []].
  apply leadingRune_Some in E as [He [k ->]]. rewrite drop_app_length.
  destruct (IH k) as (p & Hp & Hall). exists (e ++ p)%list. split.
  - rewrite <- app_assoc. now f_equal.
  - apply Forall_app. split; [|exact Hall].
    apply Forall_forall. intros x Hx. now exists e.
Qed.

Lemma tableByte_reverse (table : list (list ascii)) (x : ascii) :
  tableByte (map reverse table) x -> tableByte table x.
Proof.
  intros (e & He & Hx). apply list_elem_of_fmap in He as (e0 & -> & He0).
  exists e0. split; [exact He0 | now apply elem_of_reverse].
Qed.

Lemma trimRight_split (table : list (list ascii)) (l : list ascii) :
  exists q, l = (trimRight table l ++ q)%list /\ Forall (tableByte table) q.
Proof.
  unfold trimRight, trimLeft.
  destruct (trimLeftFuel_split (map reverse table) (length (reverse l)) (reverse l))
    as (p & Hp & Hall).
  exists (reverse p). split.
  - rewrite <- reverse_app, <- Hp. now rewrite reverse_involutive.
  - apply Forall_reverse. eapply Forall_impl; [exact Hall|]. apply tableByte_reverse.
Qed.

(** [TrimSpace] cuts a stretch of white-space bytes off either end. *)
Lemma TrimSpace_split (s : string) :
  exists p q : list ascii,
    s = string_of_list_ascii p ++ TrimSpace s ++ string_of_list_ascii q /\
    Forall (tableByte spaceRunes) p /\ Forall (tableByte spaceRunes) q.
Proof.
  unfold TrimSpace. set (l := list_ascii_of_string s).
  destruct (trimLeftFuel_split spaceRunes (length l) l) as (p & Hp & Hpall).
  fold (trimLeft spaceRunes l) in Hp.
  destruct (trimRight_split spaceRunes (trimLeft spaceRunes l)) as (q & Hq & Hqall).
  exists p, q. split; [|now split].
  rewrite <- !string_of_list_ascii_app, <- Hq, <- Hp.
  subst l. now rewrite string_of_list_ascii_of_string.
Qed.

Lemma spaceRunes_bytes :
  Forall (Forall (fun x => isGraphic x = false)) spaceRunes.
Proof. unfold spaceRunes. repeat constructor. Qed.

Lemma tableByte_not_graphic (x : ascii) : tableByte spaceRunes x -> isGraphic x = false.
Proof.
  intros (e & He & Hx). pose proof spaceRunes_bytes as H.
  rewrite Forall_forall in H. specialize (H e He). rewrite Forall_forall in H. auto.
Qed.

(** An occurrence of a pattern cannot start in a stretch that lacks the
    pattern's first byte, nor end in one that lacks its last. *)
Lemma Contains_skip_prefix (p : list ascii) (s : string) (w0 : ascii) (w : string) :
  Forall (fun x => x <> w0) p ->
  Contains (string_of_list_ascii p ++ s) (String w0 w) = true ->
  Contains s (String w0 w) = true.
Proof.
  induction p as [|c p IH]; intros Hall H; [exact H|].
  apply Forall_cons in Hall as [Hc Hall]. apply IH; [exact Hall|].
  cbn [string_of_list_ascii String.append] in H.
  change (Contains (String c (string_of_list_ascii p ++ s)) (String w0 w))
    with (HasPrefix (String c (string_of_list_ascii p ++ s)) (String w0 w)
          || Contains (string_of_list_ascii p ++ s) (String w0 w)) in H.
  apply orb_true_iff in H as [H|H]; [|exact H].
  unfold HasPrefix in H. apply String_prefix_cons in H as [<- _]. contradiction.
Qed.

Lemma prefix_empty_inv (w : string) : String.prefix w "" = true -> w = "".
Proof. destruct w; [reflexivity | discriminate]. Qed.

Lemma prefix_drop_last (w1 : string) (z : ascii) (t : string) (c : ascii) :
  z <> c ->
  String.prefix (w1 ++ String z "") (t ++ String c "") = true ->
  String.prefix (w1 ++ String z "") t = true.
Proof.
  intros Hz. revert t. induction w1 as [|a w1 IH]; intros t H.
  - destruct t as [|x t]; cbn [String.append] in *.
    + apply String_prefix_cons in H as [-> _]. contradiction.
    + apply String_prefix_cons in H as [-> _]. apply String_prefix_cons.
      split; [reflexivity | apply String_prefix_nil].
  - destruct t as [|x t]; cbn [String.append] in *.
    + apply String_prefix_cons in H as [_ H]. apply prefix_empty_inv in H.
      destruct w1; discriminate H.
    + apply String_prefix_cons in H as [-> H]. apply String_prefix_cons.
      split; [reflexivity | now apply IH].
Qed.

Lemma Contains_skip_last (s : string) (c : ascii) (w1 : string) (z : ascii) :
  z <> c ->
  Contains (s ++ String c "") (w1 ++ String z "") = true ->
  Contains s (w1 ++ String z "") = true.
Proof.
  intros Hz. induction s as [|x s IH]; intros H.
  - exfalso. cbn [String.append] in H.
    change (Contains (String c "") (w1 ++ String z ""))
      with (HasPrefix ("" ++ String c "") (w1 ++ String z "")
            || (HasPrefix "" (w1 ++ String z "") || false)) in H.
    unfold HasPrefix in H.
    apply orb_true_iff in H as [H|H].
    + apply (prefix_drop_last w1 z "" c Hz) in H. apply prefix_empty_inv in H.
      destruct w1; discriminate H.
    + rewrite orb_false_r in H. apply prefix_empty_inv in H.
      destruct w1; discriminate H.
  - change (Contains (String x s ++ String c "") (w1 ++ String z ""))
      with (HasPrefix (String x s ++ String c "") (w1 ++ String z "")
            || Contains (s ++ String c "") (w1 ++ String z "")) in H.
    change (Contains (String x s) (w1 ++ String z ""))
      with (HasPrefix (String x s) (w1 ++ String z "")
            || Contains s (w1 ++ String z "")).
    apply orb_true_iff in H as [H|H]; apply orb_true_iff.
    + left. unfold HasPrefix in *. now apply (prefix_drop_last w1 z _ c Hz).
    + right. now apply IH.
Qed.

Lemma String_app_assoc (a b c : string) : (a ++ b) ++ c = a ++ b ++ c.
Proof.
  induction a as [|x a IH]; [reflexivity|].
  cbn. rewrite !String_app_cons. f_equal. exact IH.
Qed.

Lemma String_app_nil_r (a : string) : a ++ "" = a.
Proof.
  induction a as [|x a IH]; [reflexivity|].
  cbn. rewrite !String_app_cons. f_equal. exact IH.
Qed.

Lemma Contains_skip_suffix (q : list ascii) (s w1 : string) (z : ascii) :
  Forall (fun x => x <> z) q ->
  Contains (s ++ string_of_list_ascii q) (w1 ++ String z "") = true ->
  Contains s (w1 ++ String z "") = true.
Proof.
  revert s. induction q as [|c q IH]; intros s Hall H.
  - cbn [string_of_list_ascii] in H. now rewrite String_app_nil_r in H.
  - apply Forall_cons in Hall as [Hc Hall].
    apply (Contains_skip_last s c w1 z); [congruence|].
    apply (IH (s ++ String c "") Hall).
    now rewrite String_app_assoc.
Qed.

(** Trimming keeps every occurrence of a pattern that starts and ends with a
    printable, non-blank ASCII byte. *)
Lemma Contains_TrimSpace (s : string) (w0 : ascii) (w1 : string) (z : ascii) :
  isGraphic w0 = true -> isGraphic z = true ->
  Contains s (String w0 w1 ++ String z "") = true ->
  Contains (TrimSpace s) (String w0 w1 ++ String z "") = true.
Proof.
  intros Hw0 Hz H.
  destruct (TrimSpace_split s) as (p & q & Hs & Hp & Hq).
  rewrite Hs in H.
  apply (Contains_skip_prefix p _ w0 (w1 ++ String z "")) in H.
  - apply (Contains_skip_suffix q _ (String w0 w1) z); [|exact H].
    eapply Forall_impl; [exact Hq|]. intros x Hx ->.
    apply tableByte_not_graphic in Hx. congruence.
  - eapply Forall_impl; [exact Hp|]. intros x Hx ->.
    apply tableByte_not_graphic in Hx. congruence.
Qed.

(** X6.  A reference that contains "://" anywhere, whatever surrounds it,
    comes back unchanged and without error: the presigner is not consulted. *)
Theorem dbVideoToSignedVideo_url_passthrough (cfg : apiConfig) (video : Video) (u : string) :
  VideoURL video = Some u -> Contains u "://" = true ->
  dbVideoToSignedVideo cfg video = (video, None).
Proof.
  intros Hu Hc. destruct (String.eqb_spec u "") as [->|Hne].
  - apply resolve_absent. now right.
  - apply (resolve_url cfg video u Hu Hne).
    now apply (Contains_TrimSpace u ":" "/" "/").
Qed.

Lemma dbVideoToSignedVideo_url_passthrough_witness :
  dbVideoToSignedVideo offlineCfg (sampleVideo (Some "  https://cdn.example/a,b.mp4 "))
  = (sampleVideo (Some "  https://cdn.example/a,b.mp4 "), None).
Proof.
  apply (dbVideoToSignedVideo_url_passthrough offlineCfg _ "  https://cdn.example/a,b.mp4 ");
    reflexivity.
Defined.

(** X7.  A non-empty reference of white space only is not taken for an absent
    one: the test for the empty string comes before the trimming, and the
    reference is refused as malformed. *)
Theorem dbVideoToSignedVideo_blank (cfg : apiConfig) (video : Video) (u : string) :
  VideoURL video = Some u -> u <> "" -> TrimSpace u = "" ->
  dbVideoToSignedVideo cfg video = (video, Some (errMalformed "")).
Proof.
  intros Hu Hne Ht.
  rewrite (resolve_no_comma cfg video u Hu Hne); rewrite Ht; reflexivity.
Qed.

Lemma dbVideoToSignedVideo_blank_witness :
  dbVideoToSignedVideo sampleCfg (sampleVideo (Some "   "))
  = (sampleVideo (Some "   "), Some (errMalformed "")).
Proof.
  apply (dbVideoToSignedVideo_blank sampleCfg _ "   "); [reflexivity | discriminate | reflexivity].
Defined.

Lemma TrimSpace_idempotent (s : string) : TrimSpace (TrimSpace s) = TrimSpace s.
Proof.
  unfold TrimSpace at 2. set (m := trimLeft spaceRunes (list_ascii_of_string s)).
  set (t := trimRight spaceRunes m).
  assert (Hm : leadingRune spaceRunes m = None)
    by (apply trimLeftFuel_done; [exact spaceRunes_nonempty | lia]).
  assert (Ht : leadingRune spaceRunes t = None).
  { apply leadingRune_None. intros e He Hp.
    destruct (trimRight_split spaceRunes m) as (q & Hq & _). fold t in Hq.
    apply (proj1 (leadingRune_None spaceRunes m) Hm e He).
    rewrite Hq. now apply prefix_app_r. }
  assert (Hr : leadingRune (map reverse spaceRunes) (reverse t) = None).
  { subst t. unfold trimRight. rewrite reverse_involutive.
    apply trimLeftFuel_done; [exact spaceRunes_rev_nonempty | lia]. }
  unfold TrimSpace. rewrite list_ascii_of_string_of_list_ascii.
  unfold trimLeft at 1. rewrite (trimLeftFuel_stable _ _ _ Ht).
  unfold trimRight, trimLeft. rewrite (trimLeftFuel_stable _ _ _ Hr).
  now rewrite reverse_involutive.
Qed.

Lemma Contains_byte_app (a b : string) (c : ascii) :
  Contains (a ++ b) (String c "") = false ->
  Contains a (String c "") = false /\ Contains b (String c "") = false.
Proof.
  induction a as [|x a IH]; intros H.
  - split; [reflexivity | exact H].
  - rewrite String_app_cons in H. apply Contains_byte_cons in H as [Hx H].
    destruct (IH H) as [Ha Hb]. split; [|exact Hb].
    apply Contains_byte_cons. now split.
Qed.

Lemma TrimSpace_keeps_absent (s : string) (c : ascii) :
  Contains s (String c "") = false -> Contains (TrimSpace s) (String c "") = false.
Proof.
  intros H. destruct (TrimSpace_split s) as (p & q & Hs & _ & _).
  rewrite Hs in H. apply Contains_byte_app in H as [_ H].
  now apply Contains_byte_app in H as [H _].
Qed.

(** X8.  [dbVideoToSignedVideo] asks the presigner only for a non-empty,
    trimmed bucket without a comma and a non-empty, trimmed key, and only for
    fifteen minutes: two clients that agree on such requests give the same
    result on every record. *)
Theorem dbVideoToSignedVideo_presign_requests (cfg1 cfg2 : apiConfig) (video : Video) :
  (forall bucket key,
      bucket <> "" -> key <> "" ->
      TrimSpace bucket = bucket -> TrimSpace key = key ->
      Contains bucket "," = false ->
      PresignGetObject (s3Client cfg1) bucket key (900 * Second)
      = PresignGetObject (s3Client cfg2) bucket key (900 * Second)) ->
  dbVideoToSignedVideo cfg1 video = dbVideoToSignedVideo cfg2 video.
Proof.
  intros Hagree.
  destruct (VideoURL video) as [u|] eqn:Hu.
  2:{ rewrite !resolve_absent by now left. reflexivity. }
  destruct (String.eqb_spec u "") as [->|Hne].
  { rewrite !resolve_absent by now right. reflexivity. }
  destruct (Contains (TrimSpace u) "://") eqn:Hscheme.
  { now rewrite !(resolve_url _ video u Hu Hne Hscheme). }
  destruct (first_comma_decompose (TrimSpace u)) as [Hc | (a & b & Hraw & Ha)].
  { now rewrite !(resolve_no_comma _ video u Hu Hne Hscheme Hc). }
  rewrite !(resolve_compact _ video u Hu Hne Hscheme a b Hraw Ha).
  destruct ((TrimSpace a =? "")%string || (TrimSpace b =? "")%string) eqn:E; [reflexivity|].
  apply orb_false_iff in E as [Eb Ek]. apply String.eqb_neq in Eb, Ek.
  change (15 * Minute) with (900 * Second).
  rewrite (Hagree (TrimSpace a) (TrimSpace b) Eb Ek
             (TrimSpace_idempotent a) (TrimSpace_idempotent b)
             (TrimSpace_keeps_absent a "," Ha)).
  reflexivity.
Qed.

Lemma dbVideoToSignedVideo_presign_requests_witness :
  dbVideoToSignedVideo sampleCfg (sampleVideo (Some " tubely-93745 , a,b.mp4"))
  = dbVideoToSignedVideo strictCfg (sampleVideo (Some " tubely-93745 , a,b.mp4")).
Proof.
  apply (dbVideoToSignedVideo_presign_requests sampleCfg strictCfg).
  intros bucket key Hb Hk _ _ _. cbn. unfold strictPresign.
  apply String.eqb_neq in Hb, Hk. rewrite Hb, Hk. reflexivity.
Defined.

(** What [dbVideoToSignedVideo] returns for a non-empty reference depends on
    the trimmed reference alone. *)
Lemma resolve_by_raw (cfg : apiConfig) (v1 v2 : Video) (u1 u2 : string) :
  VideoURL v1 = Some u1 -> VideoURL v2 = Some u2 -> u1 <> "" -> u2 <> "" ->
  TrimSpace u1 = TrimSpace u2 ->
  snd (dbVideoToSignedVideo cfg v1) = snd (dbVideoToSignedVideo cfg v2) /\
  (Contains (TrimSpace u1) "://" = false ->
   snd (dbVideoToSignedVideo cfg v1) = None ->
   VideoURL (fst (dbVideoToSignedVideo cfg v1)) = VideoURL (fst (dbVideoToSignedVideo cfg v2))).
Proof.
  intros H1 H2 N1 N2 E.
  destruct (Contains (TrimSpace u1) "://") eqn:Hs.
  { rewrite (resolve_url cfg v1 u1 H1 N1 Hs).
    rewrite E in Hs. rewrite (resolve_url cfg v2 u2 H2 N2 Hs). split; [reflexivity | discriminate]. }
  pose proof Hs as Hs2. rewrite E in Hs2.
  destruct (first_comma_decompose (TrimSpace u1)) as [Hc | (a & b & Hraw & Ha)].
  { rewrite (resolve_no_comma cfg v1 u1 H1 N1 Hs Hc).
    rewrite E in Hc. rewrite (resolve_no_comma cfg v2 u2 H2 N2 Hs2 Hc).
    rewrite E. split; [reflexivity | discriminate]. }
  rewrite (resolve_compact cfg v1 u1 H1 N1 Hs a b Hraw Ha).
  rewrite E in Hraw. rewrite (resolve_compact cfg v2 u2 H2 N2 Hs2 a b Hraw Ha).
  rewrite E.
  destruct (_ || _); [split; [reflexivity | discriminate]|].
  destruct (PresignGetObject _ _ _ _); split; try reflexivity; discriminate.
Qed.

(** X9.  White space around a stored reference does not matter: unless the
    reference is blank, resolving it and resolving its trimmed form give the
    same error or none, and for a compact reference that resolves, the same
    record. *)
Theorem dbVideoToSignedVideo_padding (cfg : apiConfig) (video : Video) (u : string) :
  TrimSpace u <> "" ->
  let padded := setVideoURL video u in
  let trimmed := setVideoURL video (TrimSpace u) in
  snd (dbVideoToSignedVideo cfg padded) = snd (dbVideoToSignedVideo cfg trimmed) /\
  (Contains (TrimSpace u) "://" = false ->
   snd (dbVideoToSignedVideo cfg padded) = None ->
   fst (dbVideoToSignedVideo cfg padded) = fst (dbVideoToSignedVideo cfg trimmed)).
Proof.
  intros Ht padded trimmed.
  assert (Hu : u <> "") by (intros ->; now apply Ht).
  destruct (resolve_by_raw cfg padded trimmed u (TrimSpace u) eq_refl eq_refl Hu Ht
              (eq_sym (TrimSpace_idempotent u))) as [Hsnd Hfst].
  split; [exact Hsnd|]. intros Hs Hok. specialize (Hfst Hs Hok).
  pose proof (resolve_keeps_fields cfg padded) as (F1 & F2 & F3 & F4).
  pose proof (resolve_keeps_fields cfg trimmed) as (G1 & G2 & G3 & G4).
  cbn zeta in *.
  destruct (fst (dbVideoToSignedVideo cfg padded)) as [i1 o1 r1 t1 d1].
  destruct (fst (dbVideoToSignedVideo cfg trimmed)) as [i2 o2 r2 t2 d2].
  cbn in *. congruence.
Qed.

Lemma dbVideoToSignedVideo_padding_witness :
  snd (dbVideoToSignedVideo sampleCfg (setVideoURL (sampleVideo None) "  mybucket,abc123.mp4 "))
  = snd (dbVideoToSignedVideo sampleCfg
           (setVideoURL (sampleVideo None) (TrimSpace "  mybucket,abc123.mp4 "))).
Proof.
  apply (proj1 (dbVideoToSignedVideo_padding sampleCfg (sampleVideo None)
                  "  mybucket,abc123.mp4 " ltac:(vm_compute; discriminate))).
Defined.

(** ** The remuxer *)

Lemma String_app_neq (a b : string) : b <> "" -> a ++ b <> a.
Proof.
  intros Hb H. apply (f_equal String.length) in H. rewrite String_length_app in H.
  destruct b; [contradiction | cbn in H; lia].
Qed.

(** X10.  [processVideoForFastStart] never ends the request itself.  Its output
    path is the input path with ".processing" appended, a path other than the
    input's; it leaves the record store, the object store and the deferred
    calls alone, adds at most the output path to the disk and keeps the input
    file.  It returns the output path exactly when the tool exited without
    error, and the empty path with the wrapped error otherwise. *)
Theorem processVideoForFastStart_outcome (ext : Externals) (filePath : string) (st : State) :
  let out := filePath ++ ".processing" in
  exists p err st',
    processVideoForFastStart ext filePath st = (st', inr (p, err)) /\
    out <> filePath /\
    records (world st') = records (world st) /\
    objects (world st') = objects (world st) /\
    deferred st' = deferred st /\
    (disk (world st') = disk (world st) \/ disk (world st') = {[ out ]} ∪ disk (world st)) /\
    (filePath ∈ disk (world st) -> filePath ∈ disk (world st')) /\
    match err with
    | None => p = out /\ ffmpegExit (ffmpeg ext filePath out) = None
    | Some e => p = "" /\ exists msg, ffmpegExit (ffmpeg ext filePath out) = Some msg /\
                                     e = ErrorfW "ffmpeg failed: " (External msg)
    end.
Proof.
  intros out. unfold processVideoForFastStart. fold out.
  unfold bind, emit, getWorld, setWorld, ret. cbn.
  destruct (ffmpegWrote (ffmpeg ext filePath out));
    destruct (ffmpegExit (ffmpeg ext filePath out)) as [msg|]; cbn;
    eexists _, _, _; (split; [reflexivity|]);
    (split; [now apply String_app_neq|]); cbn;
    repeat split; eauto; set_solver.
Qed.

(** ** The upload handler, further *)



Ltac owner_facts :=
  repeat match goal with
         | H : negb _ = false |- _ => apply negb_false_iff in H
         | H : (_ =? _)%N = true |- _ => apply N.eqb_eq in H
         | H : (_ =? _)%string = true |- _ => apply String.eqb_eq in H
         end.





(** X15.  A 200 response of the upload handler, whatever the orientation:
    the record was found under the parsed identifier, the probe classified
    the stored input with one of the three tags, the key is
    "<tag>-<hex of 32 random bytes>.mp4" (69 bytes after the tag), the object
    was put under it from the remuxed file with content type [video/mp4],
    the store holds the record as read with its reference set to
    "bucket,key", the payload is that record as [dbVideoToSignedVideo]
    resolved it, and both temporary files are gone. *)
Theorem upload_accepted (cfg : apiConfig) (ext : Externals) (r : Request) (w : World) :
  let res := serve (handlerUploadVideo cfg ext r) w in
  status (snd res) = StatusOK ->
  exists (videoID : UUID) (video0 : Video) (dst tag : string) (random : nat -> Byte.byte),
    uuid_Parse ext (PathValue r "videoID") = Done videoID /\
    records w !! videoID = Some video0 /\
    CreateTemp ext "" "tubely-upload.mp4" = Done dst /\
    getVideoAspectRatio ext dst = (tag, None) /\
    rand_Read ext = Done random /\
    (tag = "16:9" \/ tag = "9:16" \/ tag = "other") /\
    let key := tag ++ "-" ++ EncodeToString (map random (seq 0 32)) ++ ".mp4" in
    let stored := mkVideo (ID video0) (UserID video0) (Some (s3Bucket cfg ++ "," ++ key))
                    (ThumbnailURL video0) (Descriptive video0) in
    String.length key = (String.length tag + 69)%nat /\
    EvPutObject (s3Bucket cfg) key (dst ++ ".processing") "video/mp4" ∈ trace (fst res) /\
    records (world (fst res)) !! ID video0 = Some stored /\
    (exists signed, dbVideoToSignedVideo cfg stored = (signed, None) /\
                    snd res = respondWithJSON StatusOK signed) /\
    (dst ∉ disk (world (fst res))) /\ (dst ++ ".processing" ∉ disk (world (fst res))).
Proof.
  cbn zeta. unfold_handler. all_paths; intros Hok; try discriminate Hok.
  all: owner_facts; subst.
  all: repeat match goal with
              | H : bool_decide (?o <> None) = false |- _ =>
                  destruct o; [discriminate H|]; clear H
              end.
  all: unfold setVideoURL in *.
  all: eexists _, _, _, _, _.
  all: split; [reflexivity|]. all: split; [eassumption|]. all: split; [reflexivity|].
  all: split; [eassumption|]. all: split; [reflexivity|].
  all: match goal with
       | Hp : getVideoAspectRatio ?e ?p = (?s, None) |- _ =>
           split; [exact (getVideoAspectRatio_tag e p s Hp)|]
       end.
  all: split; [rewrite !String_length_app, EncodeToString_length; cbn; lia|].
  all: split; [repeat first [apply list_elem_of_here | apply list_elem_of_further]|].
  all: split; [apply lookup_insert_eq|].
  all: split; [|set_solver].
  all: eexists; split; [eassumption | reflexivity].
Qed.

Lemma upload_accepted_witness :
  let res := serve (handlerUploadVideo sampleCfg sampleExt
                      (sampleRequest "tok-42" "video" "video/mp4")) sampleWorld in
  exists (videoID : UUID) (video0 : Video) (dst tag : string) (random : nat -> Byte.byte),
    uuid_Parse sampleExt "0007" = Done videoID /\
    records sampleWorld !! videoID = Some video0 /\
    CreateTemp sampleExt "" "tubely-upload.mp4" = Done dst /\
    getVideoAspectRatio sampleExt dst = (tag, None) /\
    rand_Read sampleExt = Done random /\
    (tag = "16:9" \/ tag = "9:16" \/ tag = "other") /\
    let key := tag ++ "-" ++ EncodeToString (map random (seq 0 32)) ++ ".mp4" in
    let stored := mkVideo (ID video0) (UserID video0) (Some (s3Bucket sampleCfg ++ "," ++ key))
                    (ThumbnailURL video0) (Descriptive video0) in
    String.length key = (String.length tag + 69)%nat /\
    EvPutObject (s3Bucket sampleCfg) key (dst ++ ".processing") "video/mp4" ∈ trace (fst res) /\
    records (world (fst res)) !! ID video0 = Some stored /\
    (exists signed, dbVideoToSignedVideo sampleCfg stored = (signed, None) /\
                    snd res = respondWithJSON StatusOK signed) /\
    (dst ∉ disk (world (fst res))) /\ (dst ++ ".processing" ∉ disk (world (fst res))).
Proof.
  apply (upload_accepted sampleCfg sampleExt
           (sampleRequest "tok-42" "video" "video/mp4") sampleWorld).
  vm_compute. reflexivity.
Defined.

(** X16.  The upload handler releases what it opened, on every path: once
    any event happened the last one is the closing of the multipart file;
    the input file, once created, is closed and removed; and a file whose
    path went to the object store as the body is closed and removed. *)
Theorem upload_closes_files (cfg : apiConfig) (ext : Externals) (r : Request) (w : World) :
  let st := fst (serve (handlerUploadVideo cfg ext r) w) in
  (trace st <> [] -> last (trace st) = Some (EvClose "file")) /\
  (forall dst, head (createdFiles (trace st)) = Some dst ->
     EvClose dst ∈ trace st /\ EvRemove dst ∈ trace st) /\
  (forall bucket key body contentType,
     EvPutObject bucket key body contentType ∈ trace st ->
     EvClose body ∈ trace st /\ EvRemove body ∈ trace st).
Proof.
  unfold_handler. all_paths; (split; [intros Hne; try contradiction; reflexivity|]);
    (split; [intros dst Hd; cbn in Hd; try discriminate Hd; injection Hd as <-
            | intros bucket key body contentType Hin;
              repeat (apply elem_of_cons in Hin as [Hin|Hin]; [try discriminate Hin|]);
              try (now apply elem_of_nil in Hin); injection Hin as _ _ <- _ ]);
    split; repeat first [apply list_elem_of_here | apply list_elem_of_further].
Qed.

Lemma upload_closes_files_witness :
  let st := fst (serve (handlerUploadVideo sampleCfg sampleExt
                          (sampleRequest "tok-42" "video" "video/mp4")) sampleWorld) in
  last (trace st) = Some (EvClose "file").
Proof.
  apply (proj1 (upload_closes_files sampleCfg sampleExt
                  (sampleRequest "tok-42" "video" "video/mp4") sampleWorld)).
  vm_compute. discriminate.
Defined.

Lemma Byte_to_N_inj (v v' : Byte.byte) : Byte.to_N v = Byte.to_N v' -> v = v'.
Proof.
  intros H. apply (f_equal Byte.of_N) in H. rewrite !Byte.of_to_N in H. congruence.
Qed.

Lemma EncodeToString_inj (b1 b2 : list Byte.byte) :
  EncodeToString b1 = EncodeToString b2 -> b1 = b2.
Proof.
  revert b2. induction b1 as [|v b1 IH]; intros [|v' b2] H;
    try reflexivity; try discriminate H.
  change (EncodeToString (v :: b1))
    with (String (hexdigit (N.shiftr (Byte.to_N v) 4))
            (String (hexdigit (N.land (Byte.to_N v) 15)) (EncodeToString b1))) in H.
  change (EncodeToString (v' :: b2))
    with (String (hexdigit (N.shiftr (Byte.to_N v') 4))
            (String (hexdigit (N.land (Byte.to_N v') 15)) (EncodeToString b2))) in H.
  injection H as Hhi Hlo Hrest. f_equal; [|now apply IH].
  apply Byte_to_N_inj. rewrite <- (hexvalue_byte v), <- (hexvalue_byte v').
  now rewrite Hhi, Hlo.
Qed.

Lemma String_app_inv_tail (a b t : string) : a ++ t = b ++ t -> a = b.
Proof.
  intros H. apply (f_equal list_ascii_of_string) in H.
  rewrite !list_ascii_of_string_app in H. apply app_inv_tail in H.
  apply (f_equal string_of_list_ascii) in H.
  now rewrite !string_of_list_ascii_of_string in H.
Qed.

(** X17.  The storage key determines its parts: two keys built as the upload
    handler builds them are equal only if they carry the same orientation tag
    and encode the same bytes. *)
Theorem storage_key_injective (tag1 tag2 : string) (b1 b2 : list Byte.byte) :
  tag1 = "16:9" \/ tag1 = "9:16" \/ tag1 = "other" ->
  tag2 = "16:9" \/ tag2 = "9:16" \/ tag2 = "other" ->
  tag1 ++ "-" ++ EncodeToString b1 ++ ".mp4" = tag2 ++ "-" ++ EncodeToString b2 ++ ".mp4" ->
  tag1 = tag2 /\ b1 = b2.
Proof.
  intros [-> | [-> | ->]] [-> | [-> | ->]] H;
    cbn [String.append] in H; rewrite ?String_app_cons in H;
    try discriminate H;
    (split; [reflexivity|]);
    injection H as H;
    change (EncodeToString b1 ++ ".mp4" = EncodeToString b2 ++ ".mp4") in H;
    apply String_app_inv_tail in H; now apply EncodeToString_inj.
Qed.

Lemma storage_key_injective_witness :
  "16:9" = "16:9" /\ [Byte.x00; Byte.xff] = [Byte.x00; Byte.xff].
Proof.
  apply (storage_key_injective "16:9" "16:9" [Byte.x00; Byte.xff] [Byte.x00; Byte.xff]);
    [now left | now left | reflexivity].
Defined.

(** ** The thumbnail handler, further *)

Lemma contentTypeToExt_values (ext : Externals) (contentType : string) :
  contentTypeToExt ext contentType = ".jpg" \/ contentTypeToExt ext contentType = ".png" \/
  contentTypeToExt ext contentType = ".gif" \/ contentTypeToExt ext contentType = "".
Proof.
  unfold contentTypeToExt.
  destruct (_ || _); [now left|].
  destruct (_ =? _)%string; [right; now left|].
  destruct (_ =? _)%string; [right; right; now left | now repeat right].
Qed.



(** X19.  What a request to the thumbnail handler can leave behind: nothing;
    or the file "<assetsRoot>/<id><extension>", with a non-empty extension
    from [contentTypeToExt], and then either a 500 response with the record
    untouched (the file is not removed again) or response 200 with the record
    stored with the thumbnail URL
    "http://localhost:<port>/assets/<id><extension>" and the location
    reference it had.  The object store is never touched. *)
Theorem thumbnail_effect_summary (cfg : apiConfig) (ext : Externals) (r : Request)
    (w : World) :
  let res := serve (handlerUploadThumbnail cfg ext r) w in
  let st := fst res in
  world st = w \/
  exists (videoID : UUID) (video0 : Video) (file : Part) (extension : string),
    uuid_Parse ext (PathValue r "videoID") = Done videoID /\
    records w !! videoID = Some video0 /\
    FormFile r "thumbnail" = Done file /\
    extension = contentTypeToExt ext (partContentType file) /\
    extension <> "" /\
    let filename := uuid_String ext videoID ++ extension in
    let filePath := filepath_Join ext (assetsRoot cfg) filename in
    let stored := mkVideo (ID video0) (UserID video0) (VideoURL video0)
                    (Some ("http://localhost:" ++ port cfg ++ "/assets/" ++ filename))
                    (Descriptive video0) in
    disk (world st) = {[ filePath ]} ∪ disk w /\
    objects (world st) = objects w /\
    ((records (world st) = records w /\ status (snd res) = StatusInternalServerError) \/
     (records (world st) = <[ ID video0 := stored ]> (records w) /\
      snd res = respondWithJSON StatusOK stored)).
Proof.
  unfold_handler. all_paths;
    first [ left; reflexivity
          | right; owner_facts;
            match goal with
            | H : (_ =? "")%string = false |- _ => idtac
            end;
            eexists _, _, _, _;
            split; [reflexivity|]; split; [eassumption|]; split; [reflexivity|];
            split; [reflexivity|];
            split; [apply String.eqb_neq; assumption|];
            cbn zeta; split; [reflexivity|]; split; [reflexivity|];
            first [ left; split; reflexivity | right; split; reflexivity ] ].
Qed.




